(** * The weather ETL toolkit: transform and load, embedded and verified

    A shallow embedding of [src/transform.py] and [src/load.py], of the
    [run] command of [src/main.py] and of the renaming of the columns in
    [src/extract.py].

    The program is written against pandas, psycopg2 and PostgreSQL.  The
    parts of those systems the code relies on are modelled here at the level
    of detail the code observes:

    - a [DataFrame] is a finite map from column names to dtypes together with
      the list of its rows, each row a finite map from column names to cells;
      the index labels are the positions in the list;
    - a cell is [NA] (the values for which [pd.isna] holds: NaN, None, NaT,
      pd.NA), a string, a float, an integer or a calendar date;
    - float64 values are modelled as exact rationals ([Q]): comparisons agree
      with the IEEE ones on every finite value, a missing value compares
      false, and rounding in subtraction and in the mean is abstracted away;
    - Python exceptions are values of [exn], and every fallible function
      returns a [result];
    - the two string parsers of pandas ([to_datetime] with the format
      [%Y-%m-%d], and the numeric literal parser of [to_numeric]) are
      parameters of the development;
    - the PostgreSQL table [weather_data] is a finite map keyed by
      [(city, time)], with transactions as a working copy that is either
      committed or discarded.

    Logging is an observability output and is not modelled. *)

From Stdlib Require Import ZArith QArith Ascii String List Bool Lia DecimalString.
From stdpp Require Import gmap strings list fin_maps.

Local Open Scope string_scope.
Local Open Scope Z_scope.

(** ** Values *)

Record date := mkDate { year : Z; month : Z; day : Z }.

(** The dtypes of the columns the pipeline meets. [Int64] is pandas'
    nullable integer dtype; a plain [int64] column is an [Int64] column with
    no missing value. *)
Inductive dtype := Object | Float64 | Int64 | Datetime64.

Inductive cell :=
| NA
| Str (s : string)
| Num (q : Q)
| Int (z : Z)
| Date (d : date).

(** ** Exceptions *)

Inductive value_error :=
| UnknownStrategy (strategy : string)  (* ValueError(f"Unknown strategy: {strategy}") *)
| TimeData (v : cell)                  (* pandas: time data ... doesn't match format *)
| IntLiteral (s : string).             (* int(): invalid literal *)

Inductive pg_error :=
| OperationalError            (* connection lost *)
| NotNullViolation
| StringDataRightTruncation   (* value too long for type character varying(n) *)
| DatatypeMismatch
| CardinalityViolation        (* ON CONFLICT DO UPDATE command cannot affect row a second time *)
| UndefinedTable.             (* relation "weather_data" does not exist *)

Inductive exn :=
| KeyError (col : string)
| TypeError
| AttributeError
| ValueError (why : value_error)
| StorageError (e : pg_error).

Inductive result (A : Type) :=
| Ok (a : A)
| Raise (e : exn).
Arguments Ok {A} a.
Arguments Raise {A} e.

#[export] Instance result_ret : MRet result := fun A a => Ok a.
#[export] Instance result_bind : MBind result := fun A B f m =>
  match m with
  | Ok a => f a
  | Raise e => Raise e
  end.

#[export] Instance result_fmap : FMap result := fun A B f m =>
  match m with
  | Ok a => Ok (f a)
  | Raise e => Raise e
  end.

Fixpoint mapR {A B : Type} (f : A → result B) (l : list A) : result (list B) :=
  match l with
  | [] => Ok []
  | x :: l' => y ← f x; ys ← mapR f l'; Ok (y :: ys)
  end.

(** ** Scalars *)

Definition isna (v : cell) : bool :=
  match v with NA => true | _ => false end.

Definition Qltb (x y : Q) : bool := negb (Qle_bool y x).

(** [v < k] and [v > k] for a cell of a numeric column and a number: a
    missing value compares false, a string or a date is a [TypeError]. *)
Definition lt_scalar (k : Q) (v : cell) : result bool :=
  match v with
  | NA => Ok false
  | Num q => Ok (Qltb q k)
  | Int z => Ok (Qltb (inject_Z z) k)
  | Str _ | Date _ => Raise TypeError
  end.

Definition gt_scalar (k : Q) (v : cell) : result bool :=
  match v with
  | NA => Ok false
  | Num q => Ok (Qltb k q)
  | Int z => Ok (Qltb k (inject_Z z))
  | Str _ | Date _ => Raise TypeError
  end.

(** [a - b] on cells: missing if either side is missing. *)
Definition sub_scalar (a b : cell) : result cell :=
  match a, b with
  | (Str _ | Date _), _ | _, (Str _ | Date _) => Raise TypeError
  | NA, _ | _, NA => Ok NA
  | Num x, Num y => Ok (Num (x - y))
  | Num x, Int y => Ok (Num (x - inject_Z y))
  | Int x, Num y => Ok (Num (inject_Z x - y))
  | Int x, Int y => Ok (Int (x - y))
  end.

Definition date_eqb (a b : date) : bool :=
  (year a =? year b) && (month a =? month b) && (day a =? day b).

(** Equality of key values as [duplicated] sees it: two missing values are
    duplicates of each other, numbers compare by value. *)
Definition cell_eqb (a b : cell) : bool :=
  match a, b with
  | NA, NA => true
  | Str s, Str t => String.eqb s t
  | Num x, Num y => Qeq_bool x y
  | Num x, Int y => Qeq_bool x (inject_Z y)
  | Int x, Num y => Qeq_bool (inject_Z x) y
  | Int x, Int y => x =? y
  | Date d, Date e => date_eqb d e
  | _, _ => false
  end.

Fixpoint key_eqb (k1 k2 : list cell) : bool :=
  match k1, k2 with
  | [], [] => true
  | a :: k1', b :: k2' => cell_eqb a b && key_eqb k1' k2'
  | _, _ => false
  end.

Definition is_integral (q : Q) : bool :=
  Z.rem (Qnum q) (Z.pos (Qden q)) =? 0.

Definition Qtrunc (q : Q) : Z := Z.quot (Qnum q) (Z.pos (Qden q)).

(** ** Calendar *)

(** Day of the week by Sakamoto's method, Monday = 0, as pandas computes it. *)
Definition month_offset (m : Z) : Z :=
  match m with
  | 1 => 0 | 2 => 3 | 3 => 2 | 4 => 5 | 5 => 0 | 6 => 3
  | 7 => 5 | 8 => 1 | 9 => 4 | 10 => 6 | 11 => 2 | 12 => 4
  | _ => 0
  end.

Definition dayofweek (d : date) : Z :=
  let y := if month d <? 3 then year d - 1 else year d in
  let c := y / 100 in
  let g := y - c * 100 in
  let f := 5 * (c mod 4) in
  let e := month_offset (month d) in
  (-1 + day d + e + f + g + g / 4) mod 7.

Definition day_name (d : date) : string :=
  match dayofweek d with
  | 0 => "Monday" | 1 => "Tuesday" | 2 => "Wednesday" | 3 => "Thursday"
  | 4 => "Friday" | 5 => "Saturday" | _ => "Sunday"
  end.

(** ** Data frames *)

Record DataFrame := mkDF {
  dtypes : gmap string dtype;
  rows : list (gmap string cell)
}.

Definition get (r : gmap string cell) (c : string) : cell := default NA (r !! c).

Definition has_column (df : DataFrame) (c : string) : bool :=
  bool_decide (is_Some (dtypes df !! c)).

(** [df[c]]: the cells of a column, or [KeyError]. *)
Definition column (df : DataFrame) (c : string) : result (list cell) :=
  if has_column df c then Ok (map (fun r => get r c) (rows df)) else Raise (KeyError c).

(** [df[mask]]: boolean indexing. *)
Fixpoint select (mask : list bool) (rs : list (gmap string cell)) : list (gmap string cell) :=
  match mask, rs with
  | b :: mask', r :: rs' => if b then r :: select mask' rs' else select mask' rs'
  | _, _ => []
  end.

Definition mask_or (m1 m2 : list bool) : list bool := zip_with orb m1 m2.
Definition mask_not (m : list bool) : list bool := map negb m.

(** [df[c] = values], with the dtype of the new column. *)
Fixpoint assign_cells (c : string) (vs : list cell) (rs : list (gmap string cell)) :=
  match vs, rs with
  | v :: vs', r :: rs' => <[c := v]> r :: assign_cells c vs' rs'
  | _, _ => []
  end.

Definition set_column (df : DataFrame) (c : string) (dt : dtype) (vs : list cell) : DataFrame :=
  {| dtypes := <[c := dt]> (dtypes df); rows := assign_cells c vs (rows df) |}.

(** [df.drop(columns=[c], errors="ignore")] *)
Definition drop_column (df : DataFrame) (c : string) : DataFrame :=
  {| dtypes := delete c (dtypes df); rows := map (delete c) (rows df) |}.

Definition column_names (df : DataFrame) : list string := (map_to_list (dtypes df)).*1.

Definition is_numeric_dtype (dt : dtype) : bool :=
  match dt with Float64 | Int64 => true | _ => false end.

(** [df.select_dtypes(include="number").columns], as a membership test. *)
Definition is_numeric (df : DataFrame) (c : string) : bool :=
  match dtypes df !! c with
  | Some dt => is_numeric_dtype dt
  | None => false
  end.

Definition row_has_na (df : DataFrame) (r : gmap string cell) : bool :=
  existsb (fun c => isna (get r c)) (column_names df).

Definition count_na (df : DataFrame) (r : gmap string cell) : nat :=
  length (filter (fun c => isna (get r c) = true) (column_names df)).

(** [df.isna().sum().sum()] *)
Definition missing_count (df : DataFrame) : nat :=
  foldr (fun r n => (count_na df r + n)%nat) 0%nat (rows df).

(** [df.dropna()] *)
Definition dropna (df : DataFrame) : DataFrame :=
  {| dtypes := dtypes df;
     rows := select (map (fun r => negb (row_has_na df r)) (rows df)) (rows df) |}.

(** [duplicated(subset, keep="first")]: the mask of the rows whose key has
    been seen at an earlier position. *)
Fixpoint duplicated_from (subset : list string) (seen : list (list cell))
    (rs : list (gmap string cell)) : list bool :=
  match rs with
  | [] => []
  | r :: rs' =>
      let k := map (get r) subset in
      if existsb (key_eqb k) seen
      then true :: duplicated_from subset seen rs'
      else false :: duplicated_from subset (k :: seen) rs'
  end.

Definition duplicated (subset : list string) (rs : list (gmap string cell)) : list bool :=
  duplicated_from subset [] rs.

(** [df.drop_duplicates(subset, keep="first")] *)
Definition drop_duplicates (df : DataFrame) (subset : list string) : result DataFrame :=
  match filter (fun c => has_column df c = false) subset with
  | c :: _ => Raise (KeyError c)
  | [] => Ok {| dtypes := dtypes df;
                rows := select (mask_not (duplicated subset (rows df))) (rows df) |}
  end.

(** The values of a numeric column that are present, as rationals. *)
Definition numeric_value (v : cell) : option Q :=
  match v with
  | Num q => Some q
  | Int z => Some (inject_Z z)
  | _ => None
  end.

Definition present_values (df : DataFrame) (c : string) : list Q :=
  omap (fun r => numeric_value (get r c)) (rows df).

Definition Qsum (l : list Q) : Q := foldr Qplus 0%Q l.

(** [df[c].mean()]: the arithmetic mean of the present values; [None] (NaN)
    when there is none. *)
Definition column_mean (df : DataFrame) (c : string) : option Q :=
  match present_values df c with
  | [] => None
  | vs => Some (Qsum vs / inject_Z (Z.of_nat (length vs)))%Q
  end.

Definition column_has_na (df : DataFrame) (c : string) : bool :=
  existsb (fun r => isna (get r c)) (rows df).

(** [fillna] on the numeric columns: [fill c] is the value for column [c]. *)
Definition fillna_numeric (df : DataFrame) (fill : string → cell) : DataFrame :=
  {| dtypes := dtypes df;
     rows := map (map_imap (fun c v =>
               Some (if isna v && is_numeric df c then fill c else v))) (rows df) |}.

Definition zero_of (df : DataFrame) (c : string) : cell :=
  match dtypes df !! c with
  | Some Int64 => Int 0
  | _ => Num 0
  end.

(** The value [fillna] writes into column [c] for the mean: a float column
    takes the mean as it is, a nullable integer column only takes a whole
    number. *)
Definition mean_fill (df : DataFrame) (c : string) : cell :=
  match column_mean df c with
  | None => NA
  | Some m =>
      match dtypes df !! c with
      | Some Int64 => Int (Qtrunc m)
      | _ => Num m
      end
  end.

(** An [Int64] column refuses a fractional fill value with a [TypeError]
    ("Invalid value for dtype Int64") when it has a cell to fill. *)
Definition refuses_mean (df : DataFrame) (c : string) : bool :=
  match dtypes df !! c, column_mean df c with
  | Some Int64, Some m => column_has_na df c && negb (is_integral m)
  | _, _ => false
  end.

(** ** transform.py *)

Definition validate_temperature (df : DataFrame) : result DataFrame :=
  tmax ← column df "temperature_2m_max";
  m1 ← mapR (lt_scalar (-60)) tmax;
  m2 ← mapR (gt_scalar 60) tmax;
  tmin ← column df "temperature_2m_min";
  m3 ← mapR (lt_scalar (-60)) tmin;
  m4 ← mapR (gt_scalar 60) tmin;
  let mask := mask_or (mask_or (mask_or m1 m2) m3) m4 in
  Ok {| dtypes := dtypes df; rows := select (mask_not mask) (rows df) |}.

Definition precip_cols : list string := ["precipitation_sum"; "rain_sum"; "snowfall_sum"].

Fixpoint precipitation_mask (df : DataFrame) (cols : list string) (mask : list bool)
    : result (list bool) :=
  match cols with
  | [] => Ok mask
  | col :: cols' =>
      vs ← column df col;
      m ← mapR (lt_scalar 0) vs;
      precipitation_mask df cols' (mask_or mask m)
  end.

Definition validate_precipitation (df : DataFrame) : result DataFrame :=
  let existing_cols := List.filter (has_column df) precip_cols in
  mask ← precipitation_mask df existing_cols (map (fun _ => false) (rows df));
  Ok {| dtypes := dtypes df; rows := select (mask_not mask) (rows df) |}.

Definition numeric_cols : list string :=
  ["precipitation_sum"; "temperature_2m_max"; "temperature_2m_min";
   "rain_sum"; "snowfall_sum"; "wind_speed_10m_max"].

(** [.astype("Int64")] on the result of [to_numeric]: a float that is not a
    whole number cannot be cast safely. *)
Definition astype_Int64 (v : cell) : result cell :=
  match v with
  | NA => Ok NA
  | Int z => Ok (Int z)
  | Num q => if is_integral q then Ok (Int (Qtrunc q)) else Raise TypeError
  | Str _ | Date _ => Raise TypeError
  end.

Section Parsers.

(** [strptime s] is the date [pd.to_datetime(s, format="%Y-%m-%d")] parses,
    or [None] when [s] does not match the format. [parse_number s] is the
    number [pd.to_numeric] reads from [s], or [None]. *)
Variable strptime : string → option date.
Variable parse_number : string → option Q.

Definition to_datetime (v : cell) : result cell :=
  match v with
  | NA => Ok NA
  | Date d => Ok (Date d)
  | Str s =>
      match strptime s with
      | Some d => Ok (Date d)
      | None => Raise (ValueError (TimeData v))
      end
  | Num _ | Int _ => Raise (ValueError (TimeData v))
  end.

(** [pd.to_numeric(_, errors="coerce")] on one value. The columns it
    is applied to come out as float columns; a column of integers only, which
    pandas would leave an integer column, holds the same numbers here. *)
Definition to_numeric (v : cell) : cell :=
  match v with
  | Num q => Num q
  | Int z => Num (inject_Z z)
  | Str s =>
      match parse_number s with
      | Some q => Num q
      | None => NA
      end
  | NA | Date _ => NA
  end.

Fixpoint cast_numeric (df : DataFrame) (cols : list string) : DataFrame :=
  match cols with
  | [] => df
  | col :: cols' =>
      let df' :=
        if has_column df col
        then set_column df col Float64 (map (fun r => to_numeric (get r col)) (rows df))
        else df in
      cast_numeric df' cols'
  end.

Definition cast_types (df : DataFrame) : result DataFrame :=
  ts ← column df "time";
  ts' ← mapR to_datetime ts;
  let df := set_column df "time" Datetime64 ts' in
  let df := cast_numeric df numeric_cols in
  if has_column df "weather_code"
  then
    ws ← mapR (fun r => astype_Int64 (to_numeric (get r "weather_code"))) (rows df);
    Ok (set_column df "weather_code" Int64 ws)
  else Ok df.

Definition handle_missing_values (df : DataFrame) (strategy : string) : result DataFrame :=
  if (missing_count df =? 0)%nat then Ok df
  else if String.eqb strategy "drop" then Ok (dropna df)
  else if String.eqb strategy "fill_zero" then Ok (fillna_numeric df (zero_of df))
  else if String.eqb strategy "fill_mean" then
    if existsb (refuses_mean df) (column_names df) then Raise TypeError
    else Ok (fillna_numeric df (mean_fill df))
  else Raise (ValueError (UnknownStrategy strategy)).

Definition remove_duplicates (df : DataFrame) : result DataFrame :=
  drop_duplicates df ["city"; "time"].

(** The dtype of the difference of the two temperature columns. *)
Definition difference_dtype (df : DataFrame) : dtype :=
  match dtypes df !! "temperature_2m_max", dtypes df !! "temperature_2m_min" with
  | Some Int64, Some Int64 => Int64
  | _, _ => Float64
  end.

Definition dt_month (v : cell) : cell :=
  match v with Date d => Int (month d) | _ => NA end.

Definition dt_day_name (v : cell) : cell :=
  match v with Date d => Str (day_name d) | _ => NA end.

(** The [.dt] accessor: only on a datetime column. *)
Definition dt (df : DataFrame) (c : string) : result (list cell) :=
  vs ← column df c;
  match dtypes df !! c with
  | Some Datetime64 => Ok vs
  | _ => Raise AttributeError
  end.

Definition add_computed_columns (df : DataFrame) : result DataFrame :=
  tmax ← column df "temperature_2m_max";
  tmin ← column df "temperature_2m_min";
  range ← mapR (fun p => sub_scalar p.1 p.2) (zip tmax tmin);
  let df := set_column df "temp_range" (difference_dtype df) range in
  ts ← dt df "time";
  let df := set_column df "month" Int64 (map dt_month ts) in
  ts ← dt df "time";
  let df := set_column df "day_of_week" Object (map dt_day_name ts) in
  Ok df.

(** [transform]. The final [reset_index(drop=True)] renumbers the rows, which
    are numbered by their position here. *)
Definition transform (df : DataFrame) (missing_strategy : string) : result DataFrame :=
  let df := drop_column df "source_file" in
  df ← remove_duplicates df;
  df ← cast_types df;
  df ← handle_missing_values df missing_strategy;
  df ← validate_temperature df;
  df ← validate_precipitation df;
  df ← add_computed_columns df;
  Ok df.

End Parsers.

(** ** load.py *)

#[export] Instance date_eq_dec : EqDecision date.
Proof. solve_decision. Defined.

#[export] Instance date_countable : Countable date :=
  inj_countable' (fun d => (year d, month d, day d))
                 (fun t => mkDate t.1.1 t.1.2 t.2) (fun d => match d with mkDate _ _ _ => eq_refl end).

Inductive sqltype := VARCHAR (n : nat) | DATE | FLOAT | INTEGER.

(** The columns of [CREATE_TABLE_SQL] that [UPSERT_SQL] writes, in the order
    of its column list, with their NOT NULL flags. The columns [id] and
    [created_at] are filled in by the database and are not modelled. *)
Definition CREATE_TABLE_SQL : list (string * sqltype * bool) :=
  [("city", VARCHAR 50, true);
   ("time", DATE, true);
   ("precipitation_sum", FLOAT, false);
   ("temperature_2m_max", FLOAT, false);
   ("temperature_2m_min", FLOAT, false);
   ("rain_sum", FLOAT, false);
   ("snowfall_sum", FLOAT, false);
   ("weather_code", INTEGER, false);
   ("wind_speed_10m_max", FLOAT, false);
   ("temp_range", FLOAT, false);
   ("month", INTEGER, false);
   ("day_of_week", VARCHAR 10, false)].

(** The [SET] list of [UPSERT_SQL]: the columns overwritten from [EXCLUDED]
    on a conflict. *)
Definition UPSERT_SET : list string :=
  ["precipitation_sum"; "temperature_2m_max"; "temperature_2m_min";
   "rain_sum"; "snowfall_sum"; "weather_code"; "wind_speed_10m_max";
   "temp_range"; "month"; "day_of_week"].

(** The relation [weather_data]: at most one tuple per (city, time), by the
    UNIQUE constraint; a tuple maps the other columns to their values. *)
Record Table := mkTable {
  tuples : gmap (string * date) (gmap string cell)
}.

Inductive statement :=
| CreateTable
| Upsert (page : list (list cell))
| SelectCount.

Inductive event := Connect | Execute (s : statement) | Commit | Rollback | Close.

(** The database as the program sees it: the committed relation ([None]
    before the table exists) and the calls made on connections so far. *)
Record World := mkWorld {
  relation : option Table;
  trace : list event
}.

(** An open connection: the transaction's working copy of the relation. *)
Record Connection := mkConnection {
  working : option Table
}.

Definition log (ev : list event) (w : World) : World :=
  {| relation := relation w; trace := trace w ++ ev |}.

(** [get_connection()] *)
Definition get_connection (w : World) : Connection * World :=
  ({| working := relation w |}, log [Connect] w).

(** [conn.commit()], [conn.rollback()], [conn.close()] *)
Definition commit (conn : Connection) (w : World) : World :=
  {| relation := working conn; trace := trace w ++ [Commit] |}.

Definition rollback (conn : Connection) (w : World) : World := log [Rollback] w.

Definition close (conn : Connection) (w : World) : World := log [Close] w.

Definition Qround (q : Q) : Z :=
  Z.quot (2 * Qnum q + Z.sgn (Qnum q) * Z.pos (Qden q)) (2 * Z.pos (Qden q)).

(** The value a column of type [ty] stores for the literal [v]. A literal of
    another kind is refused; the conversions PostgreSQL would attempt on it
    are not modelled. *)
Definition store_value (ty : sqltype) (not_null : bool) (v : cell) : pg_error + cell :=
  match v, ty with
  | NA, _ => if not_null then inl NotNullViolation else inr NA
  | Str s, VARCHAR n =>
      if (String.length s <=? n)%nat then inr (Str s) else inl StringDataRightTruncation
  | Date d, DATE => inr (Date d)
  | Num q, FLOAT => inr (Num q)
  | Int z, FLOAT => inr (Num (inject_Z z))
  | Int z, INTEGER => inr (Int z)
  | Num q, INTEGER => inr (Int (Qround q))
  | _, _ => inl DatatypeMismatch
  end.

Fixpoint store_values (schema : list (string * sqltype * bool)) (rec : list cell)
    : pg_error + list (string * cell) :=
  match schema, rec with
  | [], [] => inr []
  | (c, ty, nn) :: schema', v :: rec' =>
      match store_value ty nn v with
      | inl e => inl e
      | inr v' =>
          match store_values schema' rec' with
          | inl e => inl e
          | inr vs => inr ((c, v') :: vs)
          end
      end
  | _, _ => inl DatatypeMismatch
  end.

(** The row proposed for insertion: its key and its other fields. *)
Definition proposed (rec : list cell) : pg_error + (string * date * gmap string cell) :=
  match store_values CREATE_TABLE_SQL rec with
  | inl e => inl e
  | inr ((_, Str c) :: (_, Date d) :: vs) => inr (c, d, list_to_map vs)
  | inr _ => inl DatatypeMismatch
  end.

(** [ON CONFLICT (city, time) DO UPDATE SET c = EXCLUDED.c, ...] *)
Definition do_update (old excluded : gmap string cell) : gmap string cell :=
  foldr (fun c f => <[c := default NA (excluded !! c)]> f) old UPSERT_SET.

(** One [INSERT ... VALUES ... ON CONFLICT ... DO UPDATE] statement. The
    rows are processed in order; a row that conflicts with a row the same
    statement has already written is an error. *)
Fixpoint insert_on_conflict (recs : list (list cell)) (touched : list (string * date))
    (t : Table) : pg_error + Table :=
  match recs with
  | [] => inr t
  | rec :: recs' =>
      match proposed rec with
      | inl e => inl e
      | inr (k, excluded) =>
          match tuples t !! k with
          | None =>
              insert_on_conflict recs' (k :: touched)
                {| tuples := <[k := excluded]> (tuples t) |}
          | Some old =>
              if bool_decide (k ∈ touched) then inl CardinalityViolation
              else insert_on_conflict recs' (k :: touched)
                     {| tuples := <[k := do_update old excluded]> (tuples t) |}
          end
      end
  end.

(** psycopg2's [_paginate]: pages of [page_size] items, the last one
    possibly shorter. [room] is the room left in the page being filled. *)
Fixpoint paginate_from {A : Type} (page_size room : nat) (page : list A) (seq : list A)
    : list (list A) :=
  match seq with
  | [] => match page with [] => [] | _ => [rev page] end
  | x :: seq' =>
      match room with
      | S (S room') => paginate_from page_size (S room') (x :: page) seq'
      | _ => rev (x :: page) :: paginate_from page_size page_size [] seq'
      end
  end.

Definition paginate {A : Type} (seq : list A) (page_size : nat) : list (list A) :=
  paginate_from page_size page_size [] seq.

(** The statements of [execute_values], one per page, on the connection.
    [fault = Some i] is a run in which the connection is lost when
    statement number [i] is sent. *)
Fixpoint execute_pages (fault : option nat) (i : nat) (pages : list (list (list cell)))
    (conn : Connection) (w : World) : (pg_error + Connection) * World :=
  match pages with
  | [] => (inr conn, w)
  | page :: pages' =>
      if bool_decide (fault = Some i) then (inl OperationalError, w)
      else
        let w := log [Execute (Upsert page)] w in
        match working conn with
        | None => (inl UndefinedTable, w)
        | Some t =>
            match insert_on_conflict page [] t with
            | inl e => (inl e, w)
            | inr t' => execute_pages fault (S i) pages' {| working := Some t' |} w
            end
        end
  end.

(** [execute_values(cur, UPSERT_SQL, records, page_size)] *)
Definition execute_values (fault : option nat) (records : list (list cell))
    (page_size : nat) (conn : Connection) (w : World) : (pg_error + Connection) * World :=
  execute_pages fault 0 (paginate records page_size) conn w.

Definition columns : list string :=
  ["city"; "time"; "precipitation_sum"; "temperature_2m_max";
   "temperature_2m_min"; "rain_sum"; "snowfall_sum"; "weather_code";
   "wind_speed_10m_max"; "temp_range"; "month"; "day_of_week"].

(** [int(val)] *)
Definition python_int (v : cell) : result cell :=
  match v with
  | Int z => Ok (Int z)
  | Num q => Ok (Int (Qtrunc q))
  | Str s =>
      match NilZero.int_of_string s with
      | Some n => Ok (Int (Z.of_int n))
      | None => Raise (ValueError (IntLiteral s))
      end
  | NA | Date _ => Raise TypeError
  end.

(** The body of the inner loop of [load]: the value appended for [col]. *)
Definition record_value (df : DataFrame) (r : gmap string cell) (col : string) : result cell :=
  if has_column df col then
    let val := get r col in
    if isna val then Ok NA
    else if String.eqb col "time" then
      match val with
      | Date d => Ok (Date d)
      | _ => Raise AttributeError
      end
    else if String.eqb col "weather_code" then python_int val
    else Ok val
  else Raise (KeyError col).

Definition build_records (df : DataFrame) : result (list (list cell)) :=
  mapR (fun r => mapR (record_value df r) columns) (rows df).

Definition empty_table : Table := {| tuples := ∅ |}.

(** [create_table()]: [CREATE TABLE IF NOT EXISTS], committed. *)
Definition create_table (w : World) : World :=
  let '(conn, w) := get_connection w in
  let w := log [Execute CreateTable] w in
  let conn := {| working := Some (default empty_table (working conn)) |} in
  let w := commit conn w in
  close conn w.

(** [load(df)] in a run with the given connectivity fault in the batch. *)
Definition load (fault : option nat) (df : DataFrame) (w : World) : result nat * World :=
  let w := create_table w in
  match build_records df with
  | Raise e => (Raise e, w)
  | Ok records =>
      let '(conn, w) := get_connection w in
      match execute_values fault records 500 conn w with
      | (inr conn', w) =>                      (* try *)
          let w := commit conn' w in
          (Ok (length (rows df)), close conn' w)
      | (inl e, w) =>                          (* except *)
          let w := rollback conn w in
          (Raise (StorageError e), close conn w)
      end
  end.


(** ** main.py *)


Section Run.

Variable strptime : string → option date.
Variable parse_number : string → option Q.


End Run.

(** ** Instances of the parsers, and the frames of the test suite *)

Definition digit (a : ascii) : option Z :=
  let n := Z.of_N (N_of_ascii a) in
  if (48 <=? n) && (n <=? 57) then Some (n - 48) else None.

Fixpoint digits_from (acc : Z) (l : list ascii) : option Z :=
  match l with
  | [] => Some acc
  | a :: l' => match digit a with
               | Some d => digits_from (10 * acc + d) l'
               | None => None
               end
  end.

Definition digits (l : list ascii) : option Z :=
  match l with [] => None | _ => digits_from 0 l end.

Definition is_leap (y : Z) : bool :=
  ((y mod 4 =? 0) && negb (y mod 100 =? 0)) || (y mod 400 =? 0).

Definition days_in_month (y m : Z) : Z :=
  match m with
  | 2 => if is_leap y then 29 else 28
  | 4 | 6 | 9 | 11 => 30
  | _ => 31
  end.

Definition dash : ascii := "-"%char.

(** A strict reading of [%Y-%m-%d]: four digits, two digits, two digits,
    separated by dashes, naming a day of the calendar. *)
Definition strict_ymd (s : string) : option date :=
  match list_ascii_of_string s with
  | [y1; y2; y3; y4; s1; m1; m2; s2; d1; d2] =>
      match digits [y1; y2; y3; y4], digits [m1; m2], digits [d1; d2] with
      | Some y, Some m, Some d =>
          if Ascii.eqb s1 dash && Ascii.eqb s2 dash
             && (1 <=? m) && (m <=? 12) && (1 <=? d) && (d <=? days_in_month y m)
          then Some (mkDate y m d) else None
      | _, _, _ => None
      end
  | _ => None
  end.

Fixpoint split_at_dot (l : list ascii) : list ascii * option (list ascii) :=
  match l with
  | [] => ([], None)
  | a :: l' =>
      if Ascii.eqb a "."%char then ([], Some l')
      else let '(i, f) := split_at_dot l' in (a :: i, f)
  end.

Definition unsigned_decimal (l : list ascii) : option Q :=
  match split_at_dot l with
  | (i, None) => (fun n => inject_Z n) <$> digits i
  | (i, Some f) =>
      match digits i, digits f with
      | Some n, Some k =>
          Some (inject_Z n + Qmake k (Pos.pow 10 (Pos.of_nat (length f))))%Q
      | _, _ => None
      end
  end.

(** Decimal literals with an optional sign: [12], [-3.5]. *)
Definition decimal_literal (s : string) : option Q :=
  match list_ascii_of_string s with
  | a :: l =>
      if Ascii.eqb a dash then Qopp <$> unsigned_decimal l
      else unsigned_decimal (a :: l)
  | [] => None
  end.

Definition frame (cols : list (string * dtype)) (rs : list (list cell)) : DataFrame :=
  {| dtypes := list_to_map cols;
     rows := map (fun r => list_to_map (zip cols.*1 r)) rs |}.

(** [sample_df] of [tests/test_transform.py]. *)
Definition sample_df : DataFrame :=
  frame [("time", Object); ("city", Object);
         ("temperature_2m_max", Float64); ("temperature_2m_min", Float64);
         ("precipitation_sum", Float64); ("rain_sum", Float64);
         ("snowfall_sum", Float64); ("weather_code", Int64);
         ("wind_speed_10m_max", Float64); ("source_file", Object)]
    [[Str "2024-01-01"; Str "berlin"; Num 7.3; Num 3.4; Num 1.9; Num 1.9; Num 0; Int 53;
      Num 19.7; Str "berlin.csv"];
     [Str "2024-01-02"; Str "berlin"; Num 7.2; Num 2.5; Num 8.5; Num 8.5; Num 0; Int 61;
      Num 20.2; Str "berlin.csv"];
     [Str "2024-01-03"; Str "berlin"; Num 10.6; Num 7.2; Num 10.8; Num 10.8; Num 0; Int 63;
      Num 27.8; Str "berlin.csv"]].

(** ** Properties the specification speaks of *)

Definition temperature_2m_max (r : gmap string cell) : cell := get r "temperature_2m_max".
Definition temperature_2m_min (r : gmap string cell) : cell := get r "temperature_2m_min".

(** A value lies outside the closed range [-60, 60]. A missing value lies
    nowhere. *)
Definition outside_range (v : cell) : Prop :=
  ∃ q, numeric_value v = Some q ∧ (q < -60 ∨ 60 < q)%Q.

Definition negative (v : cell) : Prop :=
  ∃ q, numeric_value v = Some q ∧ (q < 0)%Q.

(** The cells of a column can be compared with a number: none is a string
    or a date. *)
Definition comparable (v : cell) : bool :=
  match v with Str _ | Date _ => false | _ => true end.


Definition below (k : Q) (v : cell) : bool :=
  match numeric_value v with Some q => Qltb q k | None => false end.

Definition above (k : Q) (v : cell) : bool :=
  match numeric_value v with Some q => Qltb k q | None => false end.

Definition temperature_rejected (r : gmap string cell) : bool :=
  below (-60) (temperature_2m_max r) || above 60 (temperature_2m_max r)
  || below (-60) (temperature_2m_min r) || above 60 (temperature_2m_min r).

(** Some precipitation-family column present in the frame holds a negative
    value in the row. *)
Definition negative_precipitation (df : DataFrame) (r : gmap string cell) : Prop :=
  ∃ c, c ∈ precip_cols ∧ has_column df c = true ∧ negative (get r c).

Definition precipitation_rejected (df : DataFrame) (r : gmap string cell) : bool :=
  existsb (fun c => below 0 (get r c)) (List.filter (has_column df) precip_cols).

(** The three derived fields written into a row, [v] being the temperature
    difference. *)
Definition with_computed (v : cell) (r : gmap string cell) : gmap string cell :=
  <["day_of_week" := dt_day_name (get r "time")]>
    (<["month" := dt_month (get r "time")]> (<["temp_range" := v]> r)).

(** Scenario B: a frame with a row at 100.0 / 3.4 degrees, next to rows on
    the two bounds and a row with no maximum. *)
Definition scenario_b : DataFrame :=
  frame [("time", Object); ("city", Object);
         ("temperature_2m_max", Float64); ("temperature_2m_min", Float64)]
    [[Str "2024-01-01"; Str "berlin"; Num 7.3; Num 3.4];
     [Str "2024-01-02"; Str "berlin"; Num 100.0; Num 3.4];
     [Str "2024-01-03"; Str "berlin"; Num 60; Num (-60)];
     [Str "2024-01-04"; Str "berlin"; NA; Num 2.5]].

(** [test_validate_precipitation_rejects_negative], with a row whose
    precipitation is missing and a row with negative rain next to a missing
    precipitation. *)
Definition negative_precipitation_df : DataFrame :=
  frame [("precipitation_sum", Float64); ("rain_sum", Float64); ("snowfall_sum", Float64)]
    [[Num 1.0; Num 1.0; Num 0];
     [Num (-5.0); Num 1.0; Num 0];
     [NA; Num 1.0; NA];
     [NA; Num (-1.0); Num 0]].

(** A raw frame as the extractor hands it over: a duplicated day, a day at
    100 degrees, a day with negative rain, and derived fields supplied from
    outside. *)
Definition raw_df : DataFrame :=
  frame [("time", Object); ("city", Object);
         ("temperature_2m_max", Float64); ("temperature_2m_min", Float64);
         ("precipitation_sum", Float64); ("rain_sum", Float64);
         ("snowfall_sum", Float64); ("weather_code", Int64);
         ("wind_speed_10m_max", Float64); ("source_file", Object);
         ("temp_range", Float64); ("month", Int64); ("day_of_week", Object)]
    [[Str "2024-01-01"; Str "berlin"; Num 7.3; Num 3.4; Num 1.9; Num 1.9; Num 0; Int 53;
      Num 19.7; Str "berlin.csv"; Num 0; Int 12; Str "Sunday"];
     [Str "2024-01-01"; Str "berlin"; Num 9.9; Num 9.9; Num 9.9; Num 9.9; Num 0; Int 99;
      Num 9.9; Str "berlin.json"; Num 0; Int 12; Str "Sunday"];
     [Str "2024-01-02"; Str "berlin"; Num 100.0; Num 3.4; Num 8.5; Num 8.5; Num 0; Int 61;
      Num 20.2; Str "berlin.csv"; Num 0; Int 12; Str "Sunday"];
     [Str "2024-01-03"; Str "berlin"; Num 10.6; Num 7.2; Num 10.8; Num (-0.1); Num 0; Int 63;
      Num 27.8; Str "berlin.csv"; Num 0; Int 12; Str "Sunday"];
     [Str "2024-03-01"; Str "cologne"; Num 60; Num (-60); Num 0; Num 0; Num 0; Int 0;
      Num 1; Str "cologne.csv"; Num 0; Int 12; Str "Sunday"]].

(** The output of the pipeline on [raw_df], and its first row. *)
Definition transformed_raw_df : DataFrame :=
  match transform strict_ymd decimal_literal raw_df "drop" with
  | Ok df => df
  | Raise _ => mkDF ∅ []
  end.

Definition first_row (df : DataFrame) : gmap string cell := hd ∅ (rows df).


(** The key of a row for deduplication. *)
Definition key_of (r : gmap string cell) : list cell := map (get r) ["city"; "time"].

Definition same_key (r r' : gmap string cell) : bool := key_eqb (key_of r) (key_of r').

(** Scenario A: two rows for the same city and day with other measurements,
    and a row for another city on that day. *)
Definition scenario_a : DataFrame :=
  frame [("time", Object); ("city", Object); ("val", Int64)]
    [[Str "2024-01-01"; Str "berlin"; Int 1];
     [Str "2024-01-01"; Str "berlin"; Int 2];
     [Str "2024-01-01"; Str "cologne"; Int 3]].

(** Scenario C: [test_handle_missing_fill_mean]. *)
Definition scenario_c : DataFrame :=
  frame [("a", Float64)] [[Num 1.0]; [NA]; [Num 3.0]].




Section Normalised.

Variable strptime : string → option date.
Variable parse_number : string → option Q.

(** What type normalisation makes of a row [r] of the frame [df]. *)
Definition normalised (df : DataFrame) (r r' : gmap string cell) : Prop :=
  to_datetime strptime (get r "time") = Ok (get r' "time")
  ∧ (∀ c, c ∈ numeric_cols → has_column df c = true →
          get r' c = to_numeric parse_number (get r c))
  ∧ (has_column df "weather_code" = true →
     astype_Int64 (to_numeric parse_number (get r "weather_code"))
     = Ok (get r' "weather_code"))
  ∧ (∀ c, c ≠ "time" → c ∉ numeric_cols → c ≠ "weather_code" → r' !! c = r !! c).



Definition to_numeric_in (has : string → bool) (r : gmap string cell) (c : string) :=
  if has c then <[c := to_numeric parse_number (get r c)]> r else r.

End Normalised.



(** The same frame with its dates in order. *)
Definition coerced_df : DataFrame :=
  frame [("time", Object); ("city", Object);
         ("temperature_2m_max", Object); ("temperature_2m_min", Float64);
         ("weather_code", Object)]
    [[Str "2024-01-01"; Str "berlin"; Str "n/a"; Num 3.4; Str "n/a"];
     [Str "2024-01-02"; Str "berlin"; Str "7.2"; Num 2.5; Str "61"]].

Definition empty_world : World := {| relation := None; trace := [] |}.



(** [sample_df] of [tests/test_load.py], the same frame with the first
    maximum changed to 99.0 (Scenario D), and the frame of two cities on
    one day (Scenario E). *)
Definition load_schema : list (string * dtype) :=
  [("time", Datetime64); ("city", Object); ("precipitation_sum", Float64);
   ("temperature_2m_max", Float64); ("temperature_2m_min", Float64);
   ("rain_sum", Float64); ("snowfall_sum", Float64); ("weather_code", Int64);
   ("wind_speed_10m_max", Float64); ("temp_range", Float64); ("month", Int64);
   ("day_of_week", Object)].

Definition load_sample_df : DataFrame :=
  frame load_schema
    [[Date (mkDate 2024 1 1); Str "berlin"; Num 1.9; Num 7.3; Num 3.4; Num 1.9; Num 0;
      Int 53; Num 19.7; Num 3.9; Int 1; Str "Monday"];
     [Date (mkDate 2024 1 2); Str "berlin"; Num 8.5; Num 7.2; Num 2.5; Num 8.5; Num 0;
      Int 61; Num 20.2; Num 4.7; Int 1; Str "Tuesday"];
     [Date (mkDate 2024 1 3); Str "berlin"; Num 10.8; Num 10.6; Num 7.2; Num 10.8; Num 0;
      Int 63; Num 27.8; Num 3.4; Int 1; Str "Wednesday"]].

Definition load_updated_df : DataFrame :=
  frame load_schema
    [[Date (mkDate 2024 1 1); Str "berlin"; Num 1.9; Num 99.0; Num 3.4; Num 1.9; Num 0;
      Int 53; Num 19.7; Num 3.9; Int 1; Str "Monday"];
     [Date (mkDate 2024 1 2); Str "berlin"; Num 8.5; Num 7.2; Num 2.5; Num 8.5; Num 0;
      Int 61; Num 20.2; Num 4.7; Int 1; Str "Tuesday"];
     [Date (mkDate 2024 1 3); Str "berlin"; Num 10.8; Num 10.6; Num 7.2; Num 10.8; Num 0;
      Int 63; Num 27.8; Num 3.4; Int 1; Str "Wednesday"]].

Definition two_cities_df : DataFrame :=
  frame load_schema
    [[Date (mkDate 2024 1 1); Str "berlin"; Num 1.9; Num 7.3; Num 3.4; Num 1.9; Num 0;
      Int 53; Num 19.7; Num 3.9; Int 1; Str "Monday"];
     [Date (mkDate 2024 1 1); Str "cologne"; Num 2.1; Num 8.0; Num 4.0; Num 2.1; Num 0;
      Int 61; Num 15.0; Num 4.0; Int 1; Str "Monday"]].

(** A frame with the same day twice, as a batch would present it, and a
    frame whose second row has no city. *)
Definition same_day_twice_df : DataFrame :=
  frame load_schema
    [[Date (mkDate 2024 1 1); Str "berlin"; Num 1.9; Num 7.3; Num 3.4; Num 1.9; Num 0;
      Int 53; Num 19.7; Num 3.9; Int 1; Str "Monday"];
     [Date (mkDate 2024 1 1); Str "berlin"; Num 2.1; Num 8.0; Num 4.0; Num 2.1; Num 0;
      Int 61; Num 15.0; Num 4.0; Int 1; Str "Monday"]].

Definition no_city_df : DataFrame :=
  frame load_schema
    [[Date (mkDate 2024 1 1); Str "berlin"; Num 5.0; Num 7.3; Num 3.4; Num 1.9; Num 0;
      Int 53; Num 19.7; Num 3.9; Int 1; Str "Monday"];
     [Date (mkDate 2024 1 2); NA; Num 2.1; Num 8.0; Num 4.0; Num 2.1; Num 0;
      Int 61; Num 15.0; Num 4.0; Int 1; Str "Monday"]].

(** The value stored for column [c] of the tuple of [city] on [day]. *)
Definition stored_value (w : World) (city : string) (day : date) (c : string) : option cell :=
  t ← relation w; f ← tuples t !! (city, day); f !! c.

Definition row_count (w : World) : nat :=
  match relation w with Some t => size (tuples t) | None => 0%nat end.

(** The effect of one proposed row on the relation: insert, or overwrite
    the columns of the [SET] list. *)
Definition upsert (t : gmap (string * date) (gmap string cell)) (rec : list cell)
    : gmap (string * date) (gmap string cell) :=
  match proposed rec with
  | inr (k, excluded) =>
      <[k := match t !! k with
             | Some old => do_update old excluded
             | None => excluded
             end]> t
  | inl _ => t
  end.

Definition record_key (rec : list cell) : option (string * date) :=
  match proposed rec with
  | inr (k, _) => Some k
  | inl _ => None
  end.





Definition records_of (df : DataFrame) : list (list cell) :=
  match build_records df with
  | Ok recs => recs
  | Raise _ => []
  end.


(** The world after loading the sample frame of [tests/test_load.py]. *)
Definition loaded_world : World := (load None load_sample_df empty_world).2.

(** ** Further notions used in the properties of the code *)

(** A row with a value in every column of the frame. *)
Definition complete (df : DataFrame) (r : gmap string cell) : Prop :=
  ∀ c, has_column df c = true → get r c ≠ NA.

(** What [fillna(0)] on the numeric columns makes of a cell of column [c]. *)
Definition zero_filled (df : DataFrame) (c : string) (v : option cell) : option cell :=
  match v, dtypes df !! c with
  | Some NA, Some Float64 => Some (Num 0)
  | Some NA, Some Int64 => Some (Int 0)
  | other, _ => other
  end.

(** The frame a call returned, for stating examples. *)
Definition value_of (r : result DataFrame) : DataFrame :=
  match r with
  | Ok df => df
  | Raise _ => mkDF ∅ []
  end.

Definition deduplicated_a : DataFrame := value_of (remove_duplicates scenario_a).

(** A row as type normalisation leaves it: a date or nothing in [time], a
    number or nothing in each numeric column the frame has, a whole number
    or nothing in [weather_code]. *)
Definition typed (df : DataFrame) (r : gmap string cell) : Prop :=
  (get r "time" = NA ∨ ∃ d, get r "time" = Date d)
  ∧ (∀ c, c ∈ numeric_cols → has_column df c = true → get r c = NA ∨ ∃ q, get r c = Num q)
  ∧ (has_column df "weather_code" = true →
     get r "weather_code" = NA ∨ ∃ z, get r "weather_code" = Int z).







(** The tuple stored under a key, if any. *)
Definition stored_tuple (w : World) (k : string * date) : option (gmap string cell) :=
  t ← relation w; tuples t !! k.

(** The sample frame of [tests/test_load.py] without its [city] column. *)
Definition load_sample_without_city : DataFrame := drop_column load_sample_df "city".

(** ** extract.py *)

(** A column name is a string of characters with code points below 256.
    [isspace] is the whitespace [str.strip] removes among them: tab to
    carriage return, the four separators 28 to 31, the space, NEL and the
    no-break space. *)
Definition isspace (a : ascii) : bool :=
  let n := nat_of_ascii a in
  ((9 <=? n) && (n <=? 13) || (28 <=? n) && (n <=? 32)
   || (n =? 133) || (n =? 160))%nat.

(** [s.split(c)[0]]: what comes before the first [c]. *)
Fixpoint before (c : ascii) (s : string) : string :=
  match s with
  | EmptyString => EmptyString
  | String a s' => if Ascii.eqb a c then EmptyString else String a (before c s')
  end.

Fixpoint lstrip (s : string) : string :=
  match s with
  | EmptyString => EmptyString
  | String a s' => if isspace a then lstrip s' else s
  end.

Fixpoint rstrip (s : string) : string :=
  match s with
  | EmptyString => EmptyString
  | String a s' =>
      match rstrip s' with
      | EmptyString => if isspace a then EmptyString else String a EmptyString
      | t => String a t
      end
  end.

(** [s.strip()] *)
Definition strip (s : string) : string := rstrip (lstrip s).

(** [s.replace(a, b)] for single characters. *)
Fixpoint replace (a b : ascii) (s : string) : string :=
  match s with
  | EmptyString => EmptyString
  | String x s' => String (if Ascii.eqb x a then b else x) (replace a b s')
  end.

(** The body of the loop of [clean_column_names]: the new name of the
    column [col]. *)
Definition clean_name (col : string) : string :=
  let clean_name := strip (before "(" col) in
  replace " " "_" clean_name.

(** The dictionary [cleaned], in the order of the columns. *)
Definition cleaned (cols : list string) : list (string * string) :=
  map (fun col => (col, clean_name col)) cols.

(** The character [c] occurs in [s]. *)
Fixpoint occurs (c : ascii) (s : string) : bool :=
  match s with
  | EmptyString => false
  | String a s' => Ascii.eqb a c || occurs c s'
  end.

(** No character of [s] is whitespace. *)
Fixpoint no_space (s : string) : bool :=
  match s with
  | EmptyString => true
  | String a s' => negb (isspace a) && no_space s'
  end.

(** * Verification *)

(** ** The result monad and boolean indexing *)

Lemma bind_Ok {A B} (m : result A) (f : A → result B) (b : B) :
  m ≫= f = Ok b → ∃ a, m = Ok a ∧ f a = Ok b.
Proof. destruct m as [a|e]; simpl; [eauto | discriminate]. Qed.


Lemma mapR_Ok_inv {A B} (f : A → result B) (l : list A) (ys : list B) :
  mapR f l = Ok ys → Forall2 (fun x y => f x = Ok y) l ys.
Proof.
  revert ys; induction l as [|x l IH]; simpl; intros ys H.
  - injection H as <-. constructor.
  - apply bind_Ok in H as (y & Hy & H).
    apply bind_Ok in H as (ys' & Hys & H).
    injection H as <-. constructor; auto.
Qed.

Lemma mapR_Ok_map {A B} (f : A → result B) (g : A → B) (l : list A) (ys : list B) :
  (∀ x y, f x = Ok y → y = g x) → mapR f l = Ok ys → ys = map g l.
Proof.
  intros Hg H. apply mapR_Ok_inv in H.
  induction H as [|x y l ys Hxy _ IH]; simpl; [done|].
  by rewrite (Hg _ _ Hxy), IH.
Qed.

Lemma mapR_map {A B C} (f : B → result C) (h : A → B) (l : list A) :
  mapR f (map h l) = mapR (fun x => f (h x)) l.
Proof. induction l as [|x l IH]; simpl; [done|]. by rewrite IH. Qed.

Lemma mask_or_map {A} (f g : A → bool) (l : list A) :
  mask_or (map f l) (map g l) = map (fun x => f x || g x) l.
Proof. unfold mask_or. induction l; simpl; congruence. Qed.

Lemma select_not_map (f : gmap string cell → bool) rs :
  select (mask_not (map f rs)) rs = List.filter (fun r => negb (f r)) rs.
Proof.
  unfold mask_not. induction rs as [|r rs IH]; simpl; [done|].
  destruct (f r); simpl; by rewrite IH.
Qed.

Lemma select_map (f : gmap string cell → bool) rs :
  select (map f rs) rs = List.filter f rs.
Proof.
  induction rs as [|r rs IH]; simpl; [done|].
  destruct (f r); simpl; by rewrite IH.
Qed.

Lemma filter_sublist {A} (f : A → bool) (l : list A) : sublist (List.filter f l) l.
Proof.
  induction l as [|x l IH]; simpl; [constructor|].
  destruct (f x); by constructor.
Qed.

Lemma elem_of_filter_bool {A} (f : A → bool) (l : list A) (x : A) :
  x ∈ List.filter f l ↔ x ∈ l ∧ f x = true.
Proof. rewrite !list_elem_of_In. apply filter_In. Qed.

(** ** Comparisons *)

Lemma Qltb_lt (x y : Q) : Qltb x y = true ↔ (x < y)%Q.
Proof.
  unfold Qltb. rewrite negb_true_iff, <- not_true_iff_false, Qle_bool_iff.
  split; [apply Qnot_le_lt | apply Qlt_not_le].
Qed.

Lemma lt_scalar_below k v b : lt_scalar k v = Ok b → b = below k v.
Proof. destruct v; simpl; intros H; by inversion H. Qed.

Lemma gt_scalar_above k v b : gt_scalar k v = Ok b → b = above k v.
Proof. destruct v; simpl; intros H; by inversion H. Qed.



Lemma lt_scalar_Ok_comparable k v b : lt_scalar k v = Ok b → comparable v = true.
Proof. by destruct v. Qed.

Lemma below_spec k v : below k v = true ↔ ∃ q, numeric_value v = Some q ∧ (q < k)%Q.
Proof.
  unfold below. destruct (numeric_value v) as [q|].
  - rewrite Qltb_lt. split; [eauto|]. by intros (q' & [= <-] & H).
  - split; [done|]. by intros (q' & ? & _).
Qed.

Lemma above_spec k v : above k v = true ↔ ∃ q, numeric_value v = Some q ∧ (k < q)%Q.
Proof.
  unfold above. destruct (numeric_value v) as [q|].
  - rewrite Qltb_lt. split; [eauto|]. by intros (q' & [= <-] & H).
  - split; [done|]. by intros (q' & ? & _).
Qed.

Lemma outside_range_spec v :
  outside_range v ↔ below (-60) v = true ∨ above 60 v = true.
Proof.
  rewrite below_spec, above_spec. unfold outside_range. split.
  - intros (q & Hq & [H|H]); eauto.
  - intros [(q & Hq & H)|(q & Hq & H)]; eauto.
Qed.


Lemma column_Ok df c vs :
  column df c = Ok vs → has_column df c = true ∧ vs = map (fun r => get r c) (rows df).
Proof. unfold column. destruct (has_column df c); intros H; by inversion H. Qed.


(** A column compared with a number: the mask, when the comparison is
    defined on every cell. *)
Lemma compare_lt_Ok df c k m :
  mapR (lt_scalar k) (map (fun r => get r c) (rows df)) = Ok m →
  m = map (fun r => below k (get r c)) (rows df)
  ∧ Forall (fun r => comparable (get r c) = true) (rows df).
Proof.
  rewrite mapR_map. intros H. split.
  - eapply mapR_Ok_map; [|exact H]. intros r b. apply lt_scalar_below.
  - apply mapR_Ok_inv in H. induction H; constructor; eauto using lt_scalar_Ok_comparable.
Qed.

Lemma compare_gt_Ok df c k m :
  mapR (gt_scalar k) (map (fun r => get r c) (rows df)) = Ok m →
  m = map (fun r => above k (get r c)) (rows df).
Proof.
  rewrite mapR_map. intros H.
  eapply mapR_Ok_map; [|exact H]. intros r b. apply gt_scalar_above.
Qed.



(** ** validate_temperature *)

Lemma validate_temperature_Ok df out :
  validate_temperature df = Ok out →
  dtypes out = dtypes df
  ∧ rows out = List.filter (fun r => negb (temperature_rejected r)) (rows df).
Proof.
  unfold validate_temperature. intros H.
  apply bind_Ok in H as (tmax & Hmax & H). apply column_Ok in Hmax as [_ ->].
  apply bind_Ok in H as (m1 & H1 & H). apply compare_lt_Ok in H1 as [-> _].
  apply bind_Ok in H as (m2 & H2 & H). apply compare_gt_Ok in H2 as ->.
  apply bind_Ok in H as (tmin & Hmin & H). apply column_Ok in Hmin as [_ ->].
  apply bind_Ok in H as (m3 & H3 & H). apply compare_lt_Ok in H3 as [-> _].
  apply bind_Ok in H as (m4 & H4 & H). apply compare_gt_Ok in H4 as ->.
  injection H as <-. simpl. split; [done|].
  by rewrite !mask_or_map, select_not_map.
Qed.


(** ** validate_precipitation *)

Lemma precipitation_mask_Ok df cols (f : gmap string cell → bool) m :
  precipitation_mask df cols (map f (rows df)) = Ok m →
  m = map (fun r => f r || existsb (fun c => below 0 (get r c)) cols) (rows df).
Proof.
  revert f; induction cols as [|c cols IH]; simpl; intros f H.
  - injection H as <-. apply map_ext. intros r. by rewrite orb_false_r.
  - apply bind_Ok in H as (vs & Hvs & H). apply column_Ok in Hvs as [_ ->].
    apply bind_Ok in H as (m' & Hm' & H). apply compare_lt_Ok in Hm' as [-> _].
    rewrite mask_or_map in H. apply IH in H as ->.
    apply map_ext. intros r. by rewrite orb_assoc.
Qed.


Lemma validate_precipitation_Ok df out :
  validate_precipitation df = Ok out →
  dtypes out = dtypes df
  ∧ rows out = List.filter (fun r => negb (precipitation_rejected df r)) (rows df).
Proof.
  unfold validate_precipitation. intros H.
  apply bind_Ok in H as (m & Hm & H). injection H as <-. simpl. split; [done|].
  apply precipitation_mask_Ok in Hm as ->. simpl.
  by rewrite select_not_map.
Qed.

Lemma existsb_elem_of {A} (f : A → bool) (l : list A) :
  existsb f l = true ↔ ∃ x, x ∈ l ∧ f x = true.
Proof.
  rewrite existsb_exists. split; intros (x & H1 & H2); exists x;
    split; try done; by apply list_elem_of_In.
Qed.

Lemma precipitation_rejected_spec df r :
  precipitation_rejected df r = true ↔ negative_precipitation df r.
Proof.
  unfold precipitation_rejected, negative_precipitation, negative.
  rewrite existsb_elem_of. split.
  - intros (c & Hc & Hb). apply elem_of_filter_bool in Hc as [Hc Hp].
    apply below_spec in Hb. eauto.
  - intros (c & Hc & Hp & Hn). exists c. split.
    + by apply elem_of_filter_bool.
    + by apply below_spec.
Qed.

(** ** add_computed_columns *)

Lemma assign_cells_map c (f : gmap string cell → cell) rs :
  assign_cells c (map f rs) rs = map (fun r => <[c := f r]> r) rs.
Proof. induction rs as [|r rs IH]; simpl; [done|]. by rewrite IH. Qed.

Lemma assign_cells_Forall2 c (P : gmap string cell → cell → Prop) rs vs :
  Forall2 P rs vs →
  Forall2 (fun r r' => ∃ v, P r v ∧ r' = <[c := v]> r) rs (assign_cells c vs rs).
Proof. induction 1; simpl; constructor; eauto. Qed.

Lemma get_insert_eq r c v : get (<[c := v]> r) c = v.
Proof. unfold get. by rewrite lookup_insert_eq. Qed.

Lemma get_insert_ne r c c' v : c ≠ c' → get (<[c := v]> r) c' = get r c'.
Proof. unfold get. intros H. by rewrite lookup_insert_ne. Qed.

Lemma dt_Ok df c ts :
  dt df c = Ok ts →
  ts = map (fun r => get r c) (rows df) ∧ dtypes df !! c = Some Datetime64.
Proof.
  unfold dt. intros H. apply bind_Ok in H as (vs & Hvs & H).
  apply column_Ok in Hvs as [_ ->].
  destruct (dtypes df !! c) as [[]|]; by inversion H.
Qed.

Lemma add_computed_columns_Ok df out :
  add_computed_columns df = Ok out →
  Forall2 (fun r r' =>
             ∃ v, sub_scalar (temperature_2m_max r) (temperature_2m_min r) = Ok v
                  ∧ r' = with_computed v r)
          (rows df) (rows out)
  ∧ dtypes df !! "time" = Some Datetime64
  ∧ ∀ c, c ∉ ["temp_range"; "month"; "day_of_week"] → dtypes out !! c = dtypes df !! c.
Proof.
  unfold add_computed_columns. intros H.
  apply bind_Ok in H as (tmax & Hmax & H). apply column_Ok in Hmax as [_ ->].
  apply bind_Ok in H as (tmin & Hmin & H). apply column_Ok in Hmin as [_ ->].
  apply bind_Ok in H as (range & Hr & H).
  apply bind_Ok in H as (ts1 & Hts1 & H). apply dt_Ok in Hts1 as [-> Hdt1].
  apply bind_Ok in H as (ts2 & Hts2 & H). apply dt_Ok in Hts2 as [-> Hdt2].
  injection H as <-. simpl in *.
  rewrite lookup_insert_ne in Hdt1 by done.
  split; [|split; [done|]].
  - rewrite !map_map, !assign_cells_map.
    apply mapR_Ok_inv in Hr.
    assert (Forall2 (fun r v => sub_scalar (temperature_2m_max r) (temperature_2m_min r) = Ok v)
              (rows df) range) as Hr'.
    { clear -Hr. revert range Hr. induction (rows df) as [|r rs IH]; simpl; intros range Hr.
      - inversion Hr; constructor.
      - inversion Hr; subst. constructor; auto. }
    apply (assign_cells_Forall2 "temp_range") in Hr'.
    clear Hr. induction Hr' as [|r r1 rs rs1 (v & Hv & ->) _ IH]; simpl; constructor; [|done].
    exists v. split; [done|]. unfold with_computed.
    by rewrite !get_insert_ne by done.
  - intros c Hc. rewrite !not_elem_of_cons in Hc. destruct Hc as (? & ? & ? & _).
    by rewrite !lookup_insert_ne.
Qed.

Lemma get_with_computed v r c :
  get (with_computed v r) c =
    if decide (c = "day_of_week") then dt_day_name (get r "time")
    else if decide (c = "month") then dt_month (get r "time")
    else if decide (c = "temp_range") then v
    else get r c.
Proof.
  unfold with_computed, get. rewrite !lookup_insert.
  repeat case_decide; by subst.
Qed.

(** ** The pipeline, stage by stage *)

Section Pipeline.

Variable strptime : string → option date.
Variable parse_number : string → option Q.

Lemma transform_Ok df strategy out :
  transform strptime parse_number df strategy = Ok out →
  ∃ d1 d2 d3 d4 d5,
    remove_duplicates (drop_column df "source_file") = Ok d1
    ∧ cast_types strptime parse_number d1 = Ok d2
    ∧ handle_missing_values d2 strategy = Ok d3
    ∧ validate_temperature d3 = Ok d4
    ∧ validate_precipitation d4 = Ok d5
    ∧ add_computed_columns d5 = Ok out.
Proof.
  unfold transform. intros H.
  apply bind_Ok in H as (d1 & H1 & H).
  apply bind_Ok in H as (d2 & H2 & H).
  apply bind_Ok in H as (d3 & H3 & H).
  apply bind_Ok in H as (d4 & H4 & H).
  apply bind_Ok in H as (d5 & H5 & H).
  apply bind_Ok in H as (d6 & H6 & H).
  injection H as <-. by exists d1, d2, d3, d4, d5.
Qed.


End Pipeline.

(** ** Temperature validation *)

#[export] Instance outside_range_dec v : Decision (outside_range v).
Proof.
  destruct (below (-60) v || above 60 v) eqn:E.
  - left. apply outside_range_spec. by apply orb_true_iff.
  - right. rewrite outside_range_spec, <- orb_true_iff. congruence.
Defined.

Lemma filter_bool_Prop {A} (f : A → bool) (P : A → Prop) `{∀ x, Decision (P x)} (l : list A) :
  (∀ x, f x = true ↔ P x) → List.filter f l = filter P l.
Proof.
  intros Hf. induction l as [|x l IH]; simpl; [done|].
  rewrite filter_cons. destruct (f x) eqn:E.
  - rewrite decide_True by by apply Hf. by rewrite IH.
  - rewrite decide_False; [done|]. rewrite <- Hf. congruence.
Qed.





(** The rows Scenario B keeps: the ordinary row, the row on the bounds and
    the row with a missing maximum. *)
Example scenario_b_rows :
  (fun df => map (fun r => get r "time") (rows df)) <$> validate_temperature scenario_b
  = Ok [Str "2024-01-01"; Str "2024-01-03"; Str "2024-01-04"].
Proof. reflexivity. Qed.

(** ** Precipitation validation *)

#[export] Instance negative_precipitation_dec df r : Decision (negative_precipitation df r).
Proof.
  destruct (precipitation_rejected df r) eqn:E.
  - left. by apply precipitation_rejected_spec.
  - right. rewrite <- precipitation_rejected_spec. congruence.
Defined.





(** The test frame keeps its first row and the row with nothing but a
    missing precipitation next to a valid rain sum. *)
Example negative_precipitation_rows :
  (fun df => map (fun r => (get r "precipitation_sum", get r "rain_sum")) (rows df))
    <$> validate_precipitation negative_precipitation_df
  = Ok [(Num 1.0, Num 1.0); (NA, Num 1.0)].
Proof. reflexivity. Qed.

(** The raw frame goes through the pipeline: the duplicate, the day at 100
    degrees and the day with negative rain are gone. *)
Example transform_raw_df :
  (fun df => map (fun r => (get r "city", get r "time", get r "temperature_2m_max",
                             get r "temp_range", get r "month", get r "day_of_week"))
                 (rows df))
    <$> transform strict_ymd decimal_literal raw_df "drop"
  = Ok [(Str "berlin", Date (mkDate 2024 1 1), Num 7.3, Num (7.3 - 3.4), Int 1, Str "Monday");
        (Str "cologne", Date (mkDate 2024 3 1), Num 60, Num (60 - -60), Int 3, Str "Friday")].
Proof. reflexivity. Qed.

(** ** Derived fields *)



(** ** Missing values in the validations *)






(** ** Deduplication *)

Lemma date_eqb_eq a b : date_eqb a b = true ↔ a = b.
Proof.
  unfold date_eqb. rewrite !andb_true_iff, !Z.eqb_eq.
  destruct a, b; simpl. split; [intros [[-> ->] ->]|intros [= -> -> ->]]; done.
Qed.

Lemma cell_eqb_refl a : cell_eqb a a = true.
Proof.
  destruct a; simpl; auto.
  - apply String.eqb_refl.
  - by apply Qeq_bool_iff.
  - apply Z.eqb_refl.
  - by apply date_eqb_eq.
Qed.

Lemma cell_eqb_sym a b : cell_eqb a b = true → cell_eqb b a = true.
Proof.
  destruct a, b; simpl; try done.
  - rewrite !String.eqb_eq. congruence.
  - rewrite !Qeq_bool_iff. apply Qeq_sym.
  - rewrite !Qeq_bool_iff. apply Qeq_sym.
  - rewrite !Qeq_bool_iff. apply Qeq_sym.
  - rewrite !Z.eqb_eq. congruence.
  - rewrite !date_eqb_eq. congruence.
Qed.

Lemma cell_eqb_trans a b c :
  cell_eqb a b = true → cell_eqb b c = true → cell_eqb a c = true.
Proof.
  destruct a, b, c; simpl; try done;
    rewrite ?String.eqb_eq, ?Qeq_bool_iff, ?Z.eqb_eq, ?date_eqb_eq;
    try congruence;
    try (intros H1 H2; rewrite H1; exact H2);
    try (intros H1 H2; rewrite <- H2; exact H1).
  intros H1 H2. apply inject_Z_injective. by rewrite H1, H2.
Qed.

Lemma key_eqb_refl k : key_eqb k k = true.
Proof. induction k; simpl; [done|]. by rewrite cell_eqb_refl. Qed.

Lemma key_eqb_sym k1 k2 : key_eqb k1 k2 = true → key_eqb k2 k1 = true.
Proof.
  revert k2; induction k1 as [|a k1 IH]; intros [|b k2]; simpl; try done.
  rewrite !andb_true_iff. intros [H1 H2]. auto using cell_eqb_sym.
Qed.

Lemma key_eqb_trans k1 k2 k3 :
  key_eqb k1 k2 = true → key_eqb k2 k3 = true → key_eqb k1 k3 = true.
Proof.
  revert k2 k3; induction k1 as [|a k1 IH]; intros [|b k2] [|c k3]; simpl; try done.
  rewrite !andb_true_iff. intros [H1 H2] [H3 H4]. eauto using cell_eqb_trans.
Qed.

Section Dedup.

Variable subset : list string.

Let key (r : gmap string cell) : list cell := map (get r) subset.

(** The rows [drop_duplicates] keeps, when the keys in [seen] have been
    met before. *)
Let kept (seen : list (list cell)) (rs : list (gmap string cell)) :=
  select (mask_not (duplicated_from subset seen rs)) rs.

Let is_seen (seen : list (list cell)) (k : list cell) : bool := existsb (key_eqb k) seen.

Lemma kept_cons seen r rs :
  kept seen (r :: rs) =
    if is_seen seen (key r) then kept seen rs else r :: kept (key r :: seen) rs.
Proof.
  unfold kept, is_seen; simpl. fold (key r).
  by destruct (existsb (key_eqb (key r)) seen).
Qed.

Lemma is_seen_equiv seen k k' :
  key_eqb k k' = true → is_seen seen k = is_seen seen k'.
Proof.
  intros H. unfold is_seen. induction seen as [|s seen IH]; simpl; [done|].
  rewrite IH. f_equal.
  destruct (key_eqb k s) eqn:E1, (key_eqb k' s) eqn:E2; try done.
  - by rewrite (key_eqb_trans _ _ _ (key_eqb_sym _ _ H) E1) in E2.
  - by rewrite (key_eqb_trans _ _ _ H E2) in E1.
Qed.

Lemma kept_sublist seen rs : sublist (kept seen rs) rs.
Proof.
  revert seen; induction rs as [|r rs IH]; intros seen.
  - constructor.
  - rewrite kept_cons. destruct (is_seen seen (key r)); by constructor.
Qed.

Lemma kept_seen_count seen rs k :
  is_seen seen k = true →
  List.filter (fun r => key_eqb k (key r)) (kept seen rs) = [].
Proof.
  revert seen; induction rs as [|r rs IH]; intros seen Hk; [done|].
  rewrite kept_cons. destruct (is_seen seen (key r)) eqn:Er; [by apply IH|].
  simpl. destruct (key_eqb k (key r)) eqn:Ek.
  - by rewrite (is_seen_equiv _ _ _ Ek), Er in Hk.
  - apply IH. unfold is_seen in *. simpl. by rewrite Hk, orb_true_r.
Qed.

Lemma kept_count seen rs k :
  is_seen seen k = false →
  length (List.filter (fun r => key_eqb k (key r)) (kept seen rs))
  = if existsb (fun r => key_eqb k (key r)) rs then 1%nat else 0%nat.
Proof.
  revert seen; induction rs as [|r rs IH]; intros seen Hk; [done|].
  rewrite kept_cons. simpl. destruct (is_seen seen (key r)) eqn:Er.
  - destruct (key_eqb k (key r)) eqn:Ek.
    + by rewrite (is_seen_equiv _ _ _ Ek), Er in Hk.
    + by apply IH.
  - simpl. destruct (key_eqb k (key r)) eqn:Ek; simpl.
    + rewrite kept_seen_count; [done|]. unfold is_seen. simpl. by rewrite Ek.
    + apply IH. unfold is_seen in *. simpl. by rewrite Ek, Hk.
Qed.

Lemma kept_first seen pre r post :
  is_seen seen (key r) = false →
  Forall (fun r' => key_eqb (key r') (key r) = false) pre →
  r ∈ kept seen (pre ++ r :: post).
Proof.
  intros Hs Hpre; revert seen Hs; induction Hpre as [|p pre Hp _ IH]; intros seen Hs; simpl.
  - rewrite kept_cons, Hs. by left.
  - rewrite kept_cons.
    assert (is_seen (key p :: seen) (key r) = false) as Hs'.
    { unfold is_seen in *. simpl. rewrite Hs, orb_false_r.
      destruct (key_eqb (key r) (key p)) eqn:E; [|done].
      by rewrite (key_eqb_sym _ _ E) in Hp. }
    destruct (is_seen seen (key p)); [by apply IH|].
    right. by apply IH.
Qed.

Lemma kept_later seen pre r post :
  is_seen seen (key r) = true ∨ Exists (fun r' => key_eqb (key r') (key r) = true) pre →
  kept seen (pre ++ r :: post) = kept seen (pre ++ post).
Proof.
  revert seen; induction pre as [|p pre IH]; intros seen H; simpl.
  - destruct H as [H|H]; [|by inversion H]. by rewrite kept_cons, H.
  - rewrite !kept_cons. destruct (is_seen seen (key p)) eqn:Ep.
    + apply IH. destruct H as [H|H]; [by left|].
      inversion H as [? ? Hpr|]; subst; [|by right].
      left. by rewrite <- (is_seen_equiv _ _ _ Hpr).
    + f_equal. apply IH. destruct H as [H|H].
      * left. unfold is_seen in *. simpl. by rewrite H, orb_true_r.
      * inversion H as [? ? Hpr|]; subst; [|by right].
        left. unfold is_seen. simpl. by rewrite (key_eqb_sym _ _ Hpr).
Qed.

End Dedup.

Lemma remove_duplicates_Ok df out :
  remove_duplicates df = Ok out →
  dtypes out = dtypes df
  ∧ rows out = select (mask_not (duplicated ["city"; "time"] (rows df))) (rows df).
Proof.
  unfold remove_duplicates, drop_duplicates.
  destruct (filter _ _); intros H; by inversion H.
Qed.

Lemma remove_duplicates_total df :
  has_column df "city" = true → has_column df "time" = true →
  ∃ out, remove_duplicates df = Ok out.
Proof.
  intros Hc Ht. unfold remove_duplicates, drop_duplicates.
  rewrite !filter_cons, filter_nil, Hc, Ht.
  rewrite !decide_False by done. eauto.
Qed.

Lemma remove_duplicates_one_per_key df out r :
  remove_duplicates df = Ok out → r ∈ rows df →
  length (List.filter (same_key r) (rows out)) = 1%nat.
Proof.
  intros Hout Hr. apply remove_duplicates_Ok in Hout as [_ ->].
  unfold same_key, key_of, duplicated.
  rewrite (kept_count ["city"; "time"] [] (rows df)) by done.
  assert (existsb (fun r0 => key_eqb (map (get r) ["city"; "time"])
                                     (map (get r0) ["city"; "time"])) (rows df) = true)
    as ->; [|done].
  apply existsb_elem_of. exists r. split; [done|]. apply key_eqb_refl.
Qed.

(** C4. [remove_duplicates] keeps the rows in their order and unchanged;
    of the rows of one (city, time) key exactly one is left, and it is the
    first of them; a row whose key occurs earlier in the frame contributes
    nothing to the output. *)
Theorem remove_duplicates_keeps_first (df : DataFrame)
    (Hcity : has_column df "city" = true) (Htime : has_column df "time" = true) :
  ∃ out, remove_duplicates df = Ok out
    ∧ dtypes out = dtypes df
    ∧ sublist (rows out) (rows df)
    ∧ (∀ r, r ∈ rows df → length (List.filter (same_key r) (rows out)) = 1%nat)
    ∧ (∀ pre r post, rows df = (pre ++ r :: post)%list →
         Forall (fun r' => same_key r' r = false) pre → r ∈ rows out)
    ∧ (∀ pre r post, rows df = (pre ++ r :: post)%list →
         Exists (fun r' => same_key r' r = true) pre →
         remove_duplicates (mkDF (dtypes df) (pre ++ post)%list) = Ok out).
Proof.
  destruct (remove_duplicates_total df Hcity Htime) as [out Hout].
  exists out. split; [done|].
  destruct (remove_duplicates_Ok _ _ Hout) as [Hdt Hrows].
  split; [done|].
  split; [rewrite Hrows; apply kept_sublist|]. split; [|split].
  - intros r Hr. by apply (remove_duplicates_one_per_key df).
  - rewrite Hrows. unfold duplicated. intros pre r post -> Hpre. by apply kept_first.
  - intros pre r post Hsplit Hpre.
    destruct (remove_duplicates_total (mkDF (dtypes df) (pre ++ post)%list) Hcity Htime)
      as [out' Hout'].
    rewrite Hout'. f_equal.
    destruct (remove_duplicates_Ok _ _ Hout') as [Hdt' Hrows'].
    destruct out as [dts rs], out' as [dts' rs']; simpl in *. subst.
    f_equal. rewrite Hsplit. unfold duplicated. symmetry.
    apply kept_later. by right.
Qed.

Lemma remove_duplicates_keeps_first_witness :
  has_column scenario_a "city" = true ∧ has_column scenario_a "time" = true
  ∧ ∃ out, remove_duplicates scenario_a = Ok out
      ∧ length (List.filter (same_key (first_row scenario_a)) (rows out)) = 1%nat
      ∧ first_row scenario_a ∈ rows out.
Proof.
  split; [reflexivity|]. split; [reflexivity|].
  destruct (remove_duplicates_keeps_first scenario_a eq_refl eq_refl)
    as (out & Hout & _ & _ & Hone & Hfirst & _).
  exists out. split; [done|]. split.
  - apply Hone. apply (list_elem_of_lookup_2 _ 0%nat). reflexivity.
  - apply (Hfirst [] _ (tl (rows scenario_a))); [reflexivity | constructor].
Defined.

(** Scenario A: the first of the two rows for Berlin survives with its own
    value, and the key is left with one row. *)
Example scenario_a_rows :
  (fun df => map (fun r => (get r "city", get r "time", get r "val")) (rows df))
    <$> remove_duplicates scenario_a
  = Ok [(Str "berlin", Str "2024-01-01", Int 1); (Str "cologne", Str "2024-01-01", Int 3)].
Proof. reflexivity. Qed.

(** ** Missing-value handling *)

Lemma elem_of_column_names df c : c ∈ column_names df ↔ has_column df c = true.
Proof.
  unfold column_names, has_column. rewrite bool_decide_eq_true, list_elem_of_fmap. split.
  - intros ([c' dt] & -> & H). apply elem_of_map_to_list in H. by exists dt.
  - intros [dt H]. exists (c, dt). split; [done|]. by apply elem_of_map_to_list.
Qed.

Lemma missing_count_0 df r c :
  missing_count df = 0%nat → r ∈ rows df → has_column df c = true → isna (get r c) = false.
Proof.
  unfold missing_count. intros H0 Hr Hc.
  induction (rows df) as [|r' rs IH]; [by apply elem_of_nil in Hr|].
  simpl in H0. apply Nat.eq_add_0 in H0 as [Hrow Hrest].
  apply elem_of_cons in Hr as [->|Hr]; [|by apply IH].
  unfold count_na in Hrow. apply length_zero_iff_nil in Hrow.
  apply elem_of_column_names in Hc.
  destruct (isna (get r' c)) eqn:E; [|done].
  assert (c ∈ filter (fun c => isna (get r' c) = true) (column_names df)) as Hin
    by by apply list_elem_of_filter.
  rewrite Hrow in Hin. by apply elem_of_nil in Hin.
Qed.

Lemma handle_missing_values_unknown df strategy :
  strategy ≠ "drop" → strategy ≠ "fill_zero" → strategy ≠ "fill_mean" →
  handle_missing_values df strategy =
    if (missing_count df =? 0)%nat then Ok df
    else Raise (ValueError (UnknownStrategy strategy)).
Proof.
  intros H1 H2 H3. unfold handle_missing_values.
  apply String.eqb_neq in H1, H2, H3. by rewrite H1, H2, H3.
Qed.

(** C1 fails on the code. With no missing value in the frame the strategy
    is never looked at: [handle_missing_values] returns the test suite's
    frame as it is for the unknown strategy [median], and [transform] runs to
    its end as it does for [drop]. With one missing value the same call
    raises the error. *)
Theorem unknown_strategy_passes_without_missing_values :
  handle_missing_values sample_df "median" = Ok sample_df
  ∧ transform strict_ymd decimal_literal sample_df "median"
    = transform strict_ymd decimal_literal sample_df "drop"
  ∧ (∃ out, transform strict_ymd decimal_literal sample_df "median" = Ok out
            ∧ length (rows out) = 3%nat)
  ∧ handle_missing_values scenario_c "median" = Raise (ValueError (UnknownStrategy "median")).
Proof.
  split; [reflexivity|]. split; [reflexivity|]. split; [|reflexivity].
  eexists. split; [vm_compute; reflexivity|reflexivity].
Qed.


Lemma fillna_numeric_lookup df fill r c :
  map_imap (fun c v => Some (if isna v && is_numeric df c then fill c else v)) r !! c
  = (fun v => if isna v && is_numeric df c then fill c else v) <$> r !! c.
Proof. rewrite map_lookup_imap. by destruct (r !! c). Qed.

Lemma Forall2_map_r {A B} (P : A → B → Prop) (f : A → B) (l : list A) :
  (∀ x, x ∈ l → P x (f x)) → Forall2 P l (map f l).
Proof.
  induction l as [|x l IH]; simpl; intros H; constructor.
  - apply H. by left.
  - apply IH. intros y Hy. apply H. by right.
Qed.






(** ** Type normalisation *)

Lemma mapR_Raise {A B} (f : A → result B) (l : list A) x e :
  x ∈ l → f x = Raise e → ∃ y e', y ∈ l ∧ f y = Raise e' ∧ mapR f l = Raise e'.
Proof.
  intros Hx Hfx. induction l as [|a l IH]; [by apply elem_of_nil in Hx|].
  simpl. destruct (f a) as [b|e0] eqn:Efa.
  - apply elem_of_cons in Hx as [->|Hx]; [congruence|].
    destruct (IH Hx) as (y & e' & Hy & Hfy & ->).
    exists y, e'. split; [by right|]. by split.
  - exists a, e0. split; [by left|]. by split.
Qed.


Lemma Forall2_compose {A B C} (P : A → B → Prop) (Q : B → C → Prop) l1 l2 l3 :
  Forall2 P l1 l2 → Forall2 Q l2 l3 →
  Forall2 (fun a c => ∃ b, P a b ∧ Q b c) l1 l3.
Proof.
  intros H; revert l3; induction H; intros l3 H3; inversion H3; subst; constructor; eauto.
Qed.

Lemma has_column_set_column df c0 dt vs c :
  has_column df c0 = true → has_column (set_column df c0 dt vs) c = has_column df c.
Proof.
  unfold has_column, set_column. simpl. intros H0.
  destruct (decide (c = c0)) as [->|Hne].
  - rewrite lookup_insert_eq, H0. by apply bool_decide_eq_true.
  - by rewrite lookup_insert_ne.
Qed.

Section Casts.

Variable strptime : string → option date.
Variable parse_number : string → option Q.

Lemma to_numeric_idem v : to_numeric parse_number (to_numeric parse_number v) = to_numeric parse_number v.
Proof. destruct v as [|s| | |]; simpl; try done. by destruct (parse_number s). Qed.

Lemma to_numeric_in_ext has1 has2 r cols :
  (∀ c, has1 c = has2 c) →
  foldl (to_numeric_in parse_number has1) r cols = foldl (to_numeric_in parse_number has2) r cols.
Proof.
  intros H; revert r; induction cols as [|c cols IH]; intros r; simpl; [done|].
  unfold to_numeric_in at 2 4. by rewrite H, IH.
Qed.

Lemma cast_numeric_spec df cols :
  rows (cast_numeric parse_number df cols)
  = map (fun r => foldl (to_numeric_in parse_number (has_column df)) r cols) (rows df)
  ∧ ∀ c, has_column (cast_numeric parse_number df cols) c = has_column df c.
Proof.
  revert df; induction cols as [|c0 cols IH]; intros df; simpl.
  - split; [by rewrite map_id | done].
  - destruct (has_column df c0) eqn:E0.
    + destruct (IH (set_column df c0 Float64
                      (map (fun r => to_numeric parse_number (get r c0)) (rows df)))) as [Hr Hc].
      split.
      * rewrite Hr. simpl. rewrite assign_cells_map, map_map.
        apply map_ext. intros r. unfold to_numeric_in at 3. rewrite E0.
        apply to_numeric_in_ext. intros c. by apply has_column_set_column.
      * intros c. rewrite Hc. by apply has_column_set_column.
    + destruct (IH df) as [Hr Hc]. split; [|done].
      rewrite Hr. apply map_ext. intros r. unfold to_numeric_in at 3. by rewrite E0.
Qed.

Lemma get_to_numeric_in has r cols c :
  get (foldl (to_numeric_in parse_number has) r cols) c
  = if bool_decide (c ∈ cols) && has c then to_numeric parse_number (get r c) else get r c.
Proof.
  revert r; induction cols as [|c0 cols IH]; intros r; simpl; [done|].
  rewrite IH. unfold to_numeric_in.
  destruct (decide (c = c0)) as [->|Hne].
  - rewrite (bool_decide_eq_true_2 (c0 ∈ c0 :: cols)) by by left. simpl.
    destruct (has c0); [|by rewrite andb_false_r].
    rewrite andb_true_r, get_insert_eq, to_numeric_idem. by case_bool_decide.
  - assert (bool_decide (c ∈ c0 :: cols) = bool_decide (c ∈ cols)) as ->.
    { apply bool_decide_ext. rewrite elem_of_cons. tauto. }
    destruct (has c0); [|done]. by rewrite get_insert_ne.
Qed.

Lemma lookup_to_numeric_in has r cols c :
  c ∉ cols → foldl (to_numeric_in parse_number has) r cols !! c = r !! c.
Proof.
  revert r; induction cols as [|c0 cols IH]; intros r Hc; simpl; [done|].
  apply not_elem_of_cons in Hc as [Hne Hc]. rewrite IH by done.
  unfold to_numeric_in. destruct (has c0); [|done]. by rewrite lookup_insert_ne.
Qed.

Lemma time_not_numeric : "time" ∉ numeric_cols.
Proof. unfold numeric_cols. rewrite !not_elem_of_cons. repeat split; try done. apply not_elem_of_nil. Qed.

Lemma weather_code_not_numeric : "weather_code" ∉ numeric_cols.
Proof. unfold numeric_cols. rewrite !not_elem_of_cons. repeat split; try done. apply not_elem_of_nil. Qed.

(** The row [cast_types] makes of [r], given the values of its date and
    of its weather code. *)
Let cast_row (df : DataFrame) (v : cell) (w : option cell) (r : gmap string cell) :=
  let r2 := foldl (to_numeric_in parse_number (has_column df)) (<["time" := v]> r) numeric_cols in
  match w with Some w => <["weather_code" := w]> r2 | None => r2 end.

Lemma cast_row_normalised df v w r :
  to_datetime strptime (get r "time") = Ok v →
  match w with
  | Some w => has_column df "weather_code" = true
              ∧ astype_Int64 (to_numeric parse_number (get r "weather_code")) = Ok w
  | None => has_column df "weather_code" = false
  end →
  normalised strptime parse_number df r (cast_row df v w r).
Proof.
  intros Hv Hw. unfold normalised, cast_row.
  assert (∀ r2 c, c ≠ "weather_code" →
            get (match w with Some w => <["weather_code" := w]> r2 | None => r2 end) c
            = get r2 c) as Hskip.
  { intros r2 c Hc. destruct w; [|done]. by rewrite get_insert_ne. }
  split; [|split; [|split]].
  - rewrite Hskip by done. rewrite get_to_numeric_in.
    rewrite (bool_decide_eq_false_2 _ time_not_numeric). simpl.
    by rewrite get_insert_eq.
  - intros c Hc Hhas.
    assert (c ≠ "weather_code") as Hne1
      by (intros ->; by apply weather_code_not_numeric).
    assert (c ≠ "time") as Hne2 by (intros ->; by apply time_not_numeric).
    rewrite Hskip by done. rewrite get_to_numeric_in.
    rewrite (bool_decide_eq_true_2 _ Hc), Hhas. simpl.
    by rewrite get_insert_ne.
  - intros Hhas. destruct w as [w|]; [|congruence].
    destruct Hw as [_ Hw]. by rewrite get_insert_eq.
  - intros c Hc1 Hc2 Hc3.
    assert ((match w with
             | Some w => <["weather_code" := w]>
                           (foldl (to_numeric_in parse_number (has_column df)) (<["time" := v]> r)
                                  numeric_cols)
             | None => foldl (to_numeric_in parse_number (has_column df)) (<["time" := v]> r)
                             numeric_cols
             end) !! c
            = foldl (to_numeric_in parse_number (has_column df)) (<["time" := v]> r) numeric_cols !! c)
      as ->.
    { destruct w; [|done]. by rewrite lookup_insert_ne. }
    rewrite lookup_to_numeric_in by done. by rewrite lookup_insert_ne.
Qed.

Lemma cast_types_Ok df out :
  cast_types strptime parse_number df = Ok out →
  Forall2 (normalised strptime parse_number df) (rows df) (rows out)
  ∧ (∀ c, has_column out c = has_column df c).
Proof.
  unfold cast_types. intros H.
  apply bind_Ok in H as (ts & Hts & H). apply column_Ok in Hts as [Htime ->].
  apply bind_Ok in H as (ts' & Hts' & H).
  apply mapR_Ok_inv in Hts'. apply Forall2_fmap_l in Hts'.
  apply (assign_cells_Forall2 "time") in Hts'.
  remember (set_column df "time" Datetime64 ts') as df1 eqn:Edf1.
  assert (rows df1 = assign_cells "time" ts' (rows df)) as Hrows1 by by subst df1.
  assert (∀ c, has_column df1 c = has_column df c) as Hcols1
    by (intros c; subst df1; by apply has_column_set_column).
  rewrite <- Hrows1 in Hts'. clear Edf1 Hrows1.
  destruct (cast_numeric_spec df1 numeric_cols) as [Hrows2 Hcols2].
  remember (cast_numeric parse_number df1 numeric_cols) as df2 eqn:Edf2. clear Edf2.
  assert (Forall2 (fun r r2 => ∃ v, to_datetime strptime (get r "time") = Ok v
                      ∧ r2 = cast_row df v None r) (rows df) (rows df2)) as H12.
  { rewrite Hrows2. apply Forall2_fmap_r.
    eapply Forall2_impl; [exact Hts'|].
    intros r r1 (v & Hv & ->). exists v. split; [done|].
    unfold cast_row. exact (to_numeric_in_ext _ _ _ _ Hcols1). }
  clear Hts' Hrows2.
  destruct (has_column df2 "weather_code") eqn:Ewc.
  - apply bind_Ok in H as (ws & Hws & H). injection H as <-.
    apply mapR_Ok_inv in Hws. apply (assign_cells_Forall2 "weather_code") in Hws.
    split.
    + change (rows (set_column df2 "weather_code" Int64 ws))
        with (assign_cells "weather_code" ws (rows df2)).
      eapply Forall2_impl; [exact (Forall2_compose _ _ _ _ _ H12 Hws)|].
      intros r r' (r2 & (v & Hv & ->) & w & Hw & ->).
      apply (cast_row_normalised df v (Some w) r Hv). split.
      * by rewrite <- Hcols1, <- Hcols2.
      * rewrite <- Hw. do 2 f_equal. unfold cast_row.
        rewrite get_to_numeric_in.
        rewrite (bool_decide_eq_false_2 _ weather_code_not_numeric).
        rewrite andb_false_l. by rewrite get_insert_ne.
    + intros c. rewrite has_column_set_column by done. by rewrite Hcols2, Hcols1.
  - injection H as <-. split.
    + eapply Forall2_impl; [exact H12|]. intros r r2 (v & Hv & ->).
      apply (cast_row_normalised df v None r Hv). by rewrite <- Hcols1, <- Hcols2.
    + intros c. by rewrite Hcols2, Hcols1.
Qed.


End Casts.











(** With its dates in order, the frame comes out with the unreadable
    temperature and weather code missing. *)
Example coerced_df_rows :
  (fun df => map (fun r => (get r "time", get r "temperature_2m_max", get r "weather_code"))
                 (rows df))
    <$> cast_types strict_ymd decimal_literal coerced_df
  = Ok [(Date (mkDate 2024 1 1), NA, NA);
        (Date (mkDate 2024 1 2), Num 7.2, Int 61)].
Proof. vm_compute. reflexivity. Qed.

(** ** The batch upsert *)

Lemma paginate_from_concat {A} (page_size room : nat) (page seq : list A) :
  concat (paginate_from page_size room page seq) = (rev page ++ seq)%list.
Proof.
  revert room page; induction seq as [|x seq IH]; intros room page.
  - cbn [paginate_from]. destruct page; cbn [concat]; by rewrite !app_nil_r.
  - cbn [paginate_from]. destruct room as [|[|room]].
    + cbn [concat]. rewrite IH. cbn [rev]. by rewrite <- !app_assoc.
    + cbn [concat]. rewrite IH. cbn [rev]. by rewrite <- !app_assoc.
    + rewrite IH. cbn [rev]. by rewrite <- !app_assoc.
Qed.

Lemma paginate_concat {A} (seq : list A) (page_size : nat) :
  concat (paginate seq page_size) = seq.
Proof. unfold paginate. by rewrite paginate_from_concat. Qed.








(** The relation after a batch: what each key holds. *)
Lemma foldl_upsert_other recs t k :
  k ∉ omap record_key recs → foldl upsert t recs !! k = t !! k.
Proof.
  revert t; induction recs as [|rec recs IH]; intros t Hk; [done|].
  simpl in *. unfold upsert at 2. unfold record_key in Hk at 1.
  destruct (proposed rec) as [e|[k' ex]] eqn:Eprop; [by apply IH|].
  apply not_elem_of_cons in Hk as [Hne Hk].
  rewrite IH by done. by rewrite lookup_insert_ne.
Qed.



Lemma do_update_other old excluded c :
  c ∉ UPSERT_SET → do_update old excluded !! c = old !! c.
Proof.
  unfold do_update. induction UPSERT_SET as [|c0 l IH]; intros Hc; [done|].
  apply not_elem_of_cons in Hc as [Hne Hc].
  cbn [foldr]. rewrite lookup_insert_ne by done. by apply IH.
Qed.







(** ** load *)

Lemma insert_on_conflict_inr recs touched t t' :
  insert_on_conflict recs touched t = inr t' →
  tuples t' = foldl upsert (tuples t) recs.
Proof.
  revert touched t; induction recs as [|rec recs IH]; intros touched t H.
  - by injection H as <-.
  - cbn [insert_on_conflict foldl] in *. unfold upsert at 2.
    destruct (proposed rec) as [|[k ex]]; [done|].
    destruct (tuples t !! k) as [old|].
    + destruct (bool_decide (k ∈ touched)); [done|]. by apply IH in H.
    + by apply IH in H.
Qed.

(** The statements of a batch leave the committed relation alone; when all
    of them succeed the working copy holds every record of the batch. *)
Lemma execute_pages_inv fault i pages t w r w' :
  execute_pages fault i pages {| working := Some t |} w = (r, w') →
  relation w' = relation w
  ∧ (∃ evs, trace w' = (trace w ++ evs)%list
            ∧ Forall (fun ev => ∃ page, ev = Execute (Upsert page)) evs)
  ∧ (∀ conn', r = inr conn' →
       working conn' = Some {| tuples := foldl upsert (tuples t) (concat pages) |}).
Proof.
  revert i t w; induction pages as [|page pages IH]; intros i t w H.
  - injection H as <- <-. split; [done|]. split.
    + exists []. by rewrite app_nil_r.
    + intros conn' [= <-]. by destruct t.
  - cbn [execute_pages working] in H.
    destruct (bool_decide (fault = Some i)).
    { injection H as <- <-. split; [done|]. split; [|done].
      exists []. by rewrite app_nil_r. }
    destruct (insert_on_conflict page [] t) as [e|t1] eqn:Epage.
    { injection H as <- <-. split; [done|]. split; [|done].
      exists [Execute (Upsert page)]. split; [done|]. repeat constructor. by exists page. }
    apply IH in H as (Hrel & (evs & Htr & Hevs) & Hok).
    apply insert_on_conflict_inr in Epage.
    split; [done|]. split.
    + exists (Execute (Upsert page) :: evs). split.
      * rewrite Htr. cbn [log trace]. by rewrite <- app_assoc.
      * constructor; [by exists page|done].
    + intros conn' Hr. rewrite (Hok conn' Hr), Epage. cbn [concat]. by rewrite foldl_app.
Qed.

Lemma create_table_spec w :
  create_table w
  = {| relation := Some (default empty_table (relation w));
       trace := trace w ++ [Connect; Execute CreateTable; Commit; Close] |}.
Proof.
  unfold create_table, get_connection, commit, close, log. cbn [relation trace working].
  by rewrite <- !app_assoc.
Qed.





(** Scenario D: the three rows reloaded with one maximum changed leave three
    tuples, and the changed field holds the new value, the others theirs. *)
Example scenario_d :
  let w := (load None load_updated_df loaded_world).2 in
  row_count w = 3%nat
  ∧ stored_value w "berlin" (mkDate 2024 1 1) "temperature_2m_max" = Some (Num 99.0)
  ∧ stored_value w "berlin" (mkDate 2024 1 1) "temperature_2m_min" = Some (Num 3.4)
  ∧ stored_value w "berlin" (mkDate 2024 1 2) "temperature_2m_max" = Some (Num 7.2).
Proof. vm_compute. split; [|split; [|split]]; reflexivity. Qed.

(** Scenario E: two cities on one day are two tuples. *)
Example scenario_e :
  row_count (load None two_cities_df empty_world).2 = 2%nat.
Proof. vm_compute. reflexivity. Qed.

(** ** Atomicity of the batch *)

Lemma build_records_length df recs :
  build_records df = Ok recs → length recs = length (rows df).
Proof.
  unfold build_records. intros H. apply mapR_Ok_inv in H.
  symmetry. by apply Forall2_length in H.
Qed.



(** A batch whose second row has no city: the first row had been written
    in the transaction with a precipitation of 5.0, and nothing of it is
    left; the caller gets the storage error after the rollback and the
    close. *)
Example load_no_city_rolled_back :
  let '(r, w) := load None no_city_df loaded_world in
  r = Raise (StorageError NotNullViolation)
  ∧ row_count w = 3%nat
  ∧ stored_value w "berlin" (mkDate 2024 1 1) "precipitation_sum" = Some (Num 1.9)
  ∧ drop 14 (trace w) = [Rollback; Close].
Proof. vm_compute. split; [|split; [|split]]; reflexivity. Qed.

(** A connection lost before the first statement, and the same day twice in
    one statement. *)
Example load_faults :
  (load (Some 0%nat) two_cities_df loaded_world).1 = Raise (StorageError OperationalError)
  ∧ row_count (load (Some 0%nat) two_cities_df loaded_world).2 = 3%nat
  ∧ (load None same_day_twice_df loaded_world).1 = Raise (StorageError CardinalityViolation)
  ∧ stored_value (load None same_day_twice_df loaded_world).2
      "berlin" (mkDate 2024 1 1) "temperature_2m_max" = Some (Num 7.3).
Proof. vm_compute. split; [|split; [|split]]; reflexivity. Qed.

(** * Further properties of the code *)

(** ** handle_missing_values: drop and fill_zero *)

Lemma row_has_na_spec df r :
  row_has_na df r = false ↔ complete df r.
Proof.
  unfold row_has_na, complete. rewrite <- not_true_iff_false, existsb_elem_of. split.
  - intros H c Hc Hna. apply H. exists c. split; [by apply elem_of_column_names|].
    by rewrite Hna.
  - intros H (c & Hc & Hna). apply elem_of_column_names in Hc.
    apply (H c Hc). by destruct (get r c).
Qed.

#[export] Instance complete_dec df r : Decision (complete df r).
Proof.
  destruct (row_has_na df r) eqn:E.
  - right. rewrite <- row_has_na_spec. congruence.
  - left. by apply row_has_na_spec.
Defined.

Lemma filter_all {A} (f : A → bool) (l : list A) :
  (∀ x, x ∈ l → f x = true) → List.filter f l = l.
Proof.
  induction l as [|x l IH]; intros H; [done|]. cbn [List.filter].
  rewrite (H x) by by left. f_equal. apply IH. intros y Hy. apply H. by right.
Qed.

Lemma handle_missing_values_drop_Ok df :
  handle_missing_values df "drop"
  = Ok {| dtypes := dtypes df;
          rows := List.filter (fun r => negb (row_has_na df r)) (rows df) |}.
Proof.
  unfold handle_missing_values.
  destruct (missing_count df =? 0)%nat eqn:E0.
  - apply Nat.eqb_eq in E0. f_equal. destruct df as [dts rs]. cbn [dtypes rows]. f_equal.
    symmetry. apply filter_all. intros r Hr. apply negb_true_iff, row_has_na_spec.
    intros c Hc Hna. pose proof (missing_count_0 _ r c E0 Hr Hc) as H.
    by rewrite Hna in H.
  - cbn [String.eqb Ascii.eqb Bool.eqb]. unfold dropna. by rewrite select_map.
Qed.

Lemma filter_none {A} (P : A → Prop) `{∀ x, Decision (P x)} (l : list A) :
  (∀ x, x ∈ l → ¬ P x) → filter P l = [].
Proof.
  induction l as [|x l IH]; intros H'; [done|].
  rewrite filter_cons, decide_False by (apply H'; by left).
  apply IH. intros y Hy. apply H'. by right.
Qed.

Lemma count_na_complete df r : complete df r → count_na df r = 0%nat.
Proof.
  intros Hr. unfold count_na. rewrite filter_none; [done|].
  intros c Hc Hna. apply elem_of_column_names in Hc. apply (Hr c Hc).
  by destruct (get r c).
Qed.

Lemma missing_count_complete df :
  Forall (complete df) (rows df) → missing_count df = 0%nat.
Proof.
  unfold missing_count. induction 1 as [|r l Hr _ IH]; [done|].
  cbn [foldr]. by rewrite IH, count_na_complete.
Qed.

(** X1. Under the [drop] strategy [handle_missing_values] never fails; it
    keeps, in their order and unchanged, exactly the rows that have a value
    in every column of the frame, so that no value of the result is
    missing. *)
Theorem handle_missing_values_drop_complete (df : DataFrame) :
  ∃ out, handle_missing_values df "drop" = Ok out
    ∧ dtypes out = dtypes df
    ∧ rows out = filter (complete df) (rows df)
    ∧ (∀ r c, r ∈ rows out → has_column out c = true → get r c ≠ NA)
    ∧ missing_count out = 0%nat.
Proof.
  eexists. split; [apply handle_missing_values_drop_Ok|]. cbn [dtypes rows].
  split; [done|].
  assert (List.filter (fun r => negb (row_has_na df r)) (rows df)
          = filter (complete df) (rows df)) as Hrows.
  { apply filter_bool_Prop. intros r. by rewrite negb_true_iff, row_has_na_spec. }
  rewrite Hrows. split; [done|]. split.
  - intros r c Hr Hc. apply list_elem_of_filter in Hr as [Hr _]. by apply Hr.
  - apply missing_count_complete. cbn [rows]. apply Forall_forall. intros r Hr.
    apply list_elem_of_filter in Hr as [Hr _]. exact Hr.
Qed.

Lemma row_has_na_spec_neg df r :
  ¬ complete df r → ∃ c, has_column df c = true ∧ get r c = NA.
Proof.
  intros H. destruct (row_has_na df r) eqn:E; [|by apply row_has_na_spec in E].
  unfold row_has_na in E. apply existsb_elem_of in E as (c & Hc & Hna).
  exists c. split; [by apply elem_of_column_names|]. by destruct (get r c).
Qed.

Lemma missing_count_pos df :
  (missing_count df =? 0)%nat = false →
  ∃ r c, r ∈ rows df ∧ has_column df c = true ∧ get r c = NA.
Proof.
  intros H. apply Nat.eqb_neq in H.
  destruct (decide (Forall (complete df) (rows df))) as [Hall|Hex].
  - by apply missing_count_complete in Hall.
  - apply not_Forall_Exists in Hex; [|apply _]. apply Exists_exists in Hex as (r & Hr & Hnc).
    exists r. apply row_has_na_spec_neg in Hnc as (c & Hc & Hna). by exists c.
Qed.

(** X2. Under the [fill_zero] strategy [handle_missing_values] never fails:
    every missing value of a float column becomes 0.0, every missing value
    of a nullable integer column becomes 0, and every other cell, the
    missing values of the other columns among them, is left as it is. *)
Theorem handle_missing_values_fill_zero (df : DataFrame) :
  ∃ out, handle_missing_values df "fill_zero" = Ok out
    ∧ dtypes out = dtypes df
    ∧ Forall2 (fun r r' => ∀ c, r' !! c = zero_filled df c (r !! c)) (rows df) (rows out).
Proof.
  unfold handle_missing_values. cbn [String.eqb Ascii.eqb Bool.eqb].
  destruct (missing_count df =? 0)%nat eqn:E0.
  - exists df. split; [done|]. split; [done|]. apply Nat.eqb_eq in E0.
    rewrite <- (map_id (rows df)) at 2. apply Forall2_map_r. intros r Hr c.
    unfold zero_filled.
    destruct (r !! c) as [[]|] eqn:Erc; try done.
    destruct (dtypes df !! c) as [dt|] eqn:Edt; [|done].
    assert (isna (get r c) = false) as Hna.
    { apply (missing_count_0 df r c E0 Hr). unfold has_column. by rewrite Edt. }
    unfold get in Hna. by rewrite Erc in Hna.
  - eexists. split; [done|]. split; [done|]. cbn [rows].
    apply Forall2_map_r. intros r Hr c. rewrite fillna_numeric_lookup.
    unfold zero_filled, is_numeric, zero_of.
    destruct (r !! c) as [[]|]; try done. cbn.
    by destruct (dtypes df !! c) as [[]|].
Qed.

(** ** remove_duplicates, again *)

Lemma kept_idempotent subset seen rs :
  select (mask_not (duplicated_from subset seen
                      (select (mask_not (duplicated_from subset seen rs)) rs)))
         (select (mask_not (duplicated_from subset seen rs)) rs)
  = select (mask_not (duplicated_from subset seen rs)) rs.
Proof.
  revert seen; induction rs as [|r rs IH]; intros seen; [done|].
  rewrite (kept_cons subset seen r rs).
  destruct (existsb (key_eqb (map (get r) subset)) seen) eqn:E; [apply IH|].
  rewrite kept_cons, E. f_equal. apply IH.
Qed.

(** X3. [remove_duplicates] is idempotent: a frame it returned comes back
    unchanged when it is deduplicated again. *)
Theorem remove_duplicates_idempotent (df out : DataFrame)
    (Hout : remove_duplicates df = Ok out) :
  remove_duplicates out = Ok out.
Proof.
  unfold remove_duplicates, drop_duplicates in *.
  destruct (filter (fun c => has_column df c = false) ["city"; "time"]) eqn:Ef; [|done].
  injection Hout as <-.
  change (filter (fun c => has_column {| dtypes := dtypes df;
                     rows := select (mask_not (duplicated ["city"; "time"] (rows df)))
                                    (rows df) |} c = false) ["city"; "time"])
    with (filter (fun c => has_column df c = false) ["city"; "time"]).
  rewrite Ef. cbn [dtypes rows]. unfold duplicated. by rewrite kept_idempotent.
Qed.

Lemma remove_duplicates_idempotent_witness :
  remove_duplicates scenario_a = Ok deduplicated_a
  ∧ remove_duplicates deduplicated_a = Ok deduplicated_a.
Proof.
  assert (remove_duplicates scenario_a = Ok deduplicated_a) as Hout by reflexivity.
  split; [exact Hout|].
  exact (remove_duplicates_idempotent scenario_a deduplicated_a Hout).
Defined.

(** ** The two validations together *)






(** ** The dtypes and the cells after type normalisation *)



(** ** The stages of [transform], one after the other *)









Lemma has_column_dtypes df df' c :
  dtypes df' = dtypes df → has_column df' c = has_column df c.
Proof. unfold has_column. by intros ->. Qed.


Lemma add_computed_columns_dtypes df out :
  add_computed_columns df = Ok out →
  has_column df "temperature_2m_max" = true
  ∧ has_column df "temperature_2m_min" = true
  ∧ dtypes out = <["day_of_week" := Object]>
                   (<["month" := Int64]>
                      (<["temp_range" := difference_dtype df]> (dtypes df))).
Proof.
  unfold add_computed_columns. intros H.
  apply bind_Ok in H as (tmax & Hmax & H). apply column_Ok in Hmax as [Hmax _].
  apply bind_Ok in H as (tmin & Hmin & H). apply column_Ok in Hmin as [Hmin _].
  apply bind_Ok in H as (range & _ & H).
  apply bind_Ok in H as (ts1 & _ & H).
  apply bind_Ok in H as (ts2 & _ & H).
  injection H as <-. done.
Qed.

Section Stages.

Variable strptime : string → option date.
Variable parse_number : string → option Q.



End Stages.



Lemma numeric_col c : bool_decide (c ∈ numeric_cols) = true → c ∈ numeric_cols.
Proof. by intros H%bool_decide_eq_true. Qed.





(** ** The cells after type normalisation *)

Lemma to_datetime_Ok strptime v v' :
  to_datetime strptime v = Ok v' → v' = NA ∨ ∃ d, v' = Date d.
Proof.
  destruct v as [|s| | |d]; cbn [to_datetime]; try done.
  - intros [= <-]. by left.
  - destruct (strptime s); [|done]. intros [= <-]. eauto.
  - intros [= <-]. eauto.
Qed.

Lemma to_numeric_cases parse_number v :
  to_numeric parse_number v = NA ∨ ∃ q, to_numeric parse_number v = Num q.
Proof.
  destruct v as [|s| | |]; cbn [to_numeric]; eauto.
  destruct (parse_number s); eauto.
Qed.

Lemma astype_Int64_Ok v v' : astype_Int64 v = Ok v' → v' = NA ∨ ∃ z, v' = Int z.
Proof.
  destruct v as [| |q| |]; cbn [astype_Int64]; try done.
  - intros [= <-]. by left.
  - destruct (is_integral q); [|done]. intros [= <-]. eauto.
  - intros [= <-]. eauto.
Qed.

Lemma cast_types_typed strptime parse_number df out :
  cast_types strptime parse_number df = Ok out → Forall (typed out) (rows out).
Proof.
  intros H. apply cast_types_Ok in H as [Hrows Hcols].
  apply Forall_forall. intros r' Hr'.
  apply list_elem_of_lookup in Hr' as [i Hi].
  destruct (Forall2_lookup_r _ _ _ _ _ Hrows Hi) as (r & _ & Htime & Hnum & Hwc & _).
  split; [by apply to_datetime_Ok in Htime|]. split.
  - intros c Hc Hhas. rewrite Hcols in Hhas. rewrite (Hnum c Hc Hhas).
    apply to_numeric_cases.
  - intros Hhas. rewrite Hcols in Hhas. by apply Hwc, astype_Int64_Ok in Hhas.
Qed.






Section Success.

Variable strptime : string → option date.
Variable parse_number : string → option Q.



End Success.



(** The rows [transform] keeps with the strategy [drop]: rows of the
    normalised frame, in their order, with a value in every column. *)
Lemma transform_drop_stages strptime parse_number raw out :
  transform strptime parse_number raw "drop" = Ok out →
  ∃ d1 d2 d5,
    remove_duplicates (drop_column raw "source_file") = Ok d1
    ∧ cast_types strptime parse_number d1 = Ok d2
    ∧ dtypes d5 = dtypes d2
    ∧ sublist (rows d5) (rows d2)
    ∧ Forall (complete d2) (rows d5)
    ∧ add_computed_columns d5 = Ok out.
Proof.
  intros H. apply transform_Ok in H as (d1 & d2 & d3 & d4 & d5 & H1 & H2 & H3 & H4 & H5 & H6).
  exists d1, d2, d5. split; [done|]. split; [done|].
  rewrite handle_missing_values_drop_Ok in H3. injection H3 as <-.
  apply validate_temperature_Ok in H4 as [D4 R4]. cbn [dtypes rows] in D4, R4.
  apply validate_precipitation_Ok in H5 as [D5 R5].
  assert (sublist (rows d5) (List.filter (fun r => negb (row_has_na d2 r)) (rows d2))) as S5.
  { rewrite R5. etransitivity; [apply filter_sublist|]. rewrite R4. apply filter_sublist. }
  split; [by rewrite D5, D4|].
  split; [etransitivity; [exact S5|apply filter_sublist]|].
  split; [|done].
  apply Forall_forall. intros r Hr.
  pose proof (elem_of_sublist _ _ _ Hr S5) as Hin.
  apply elem_of_filter_bool in Hin as [_ Hna].
  apply row_has_na_spec. by apply negb_true_iff.
Qed.

Lemma Forall2_impl_l {A B} (P Q : A → B → Prop) (l : list A) (l' : list B) :
  Forall2 P l l' → (∀ x y, x ∈ l → P x y → Q x y) → Forall2 Q l l'.
Proof.
  induction 1 as [|x y l l' Hxy _ IH]; intros HPQ; constructor.
  - apply HPQ; [by left|done].
  - apply IH. intros x' y' Hx'. apply HPQ. by right.
Qed.

(** Every row [transform] returns with the strategy [drop] is a complete
    row of the normalised frame, with a date and two temperatures, extended
    with the derived fields. *)
Lemma transform_drop_rows strptime parse_number raw out :
  transform strptime parse_number raw "drop" = Ok out →
  ∃ d1 d2 d5,
    remove_duplicates (drop_column raw "source_file") = Ok d1
    ∧ cast_types strptime parse_number d1 = Ok d2
    ∧ dtypes d5 = dtypes d2
    ∧ sublist (rows d5) (rows d2)
    ∧ (∀ c, c ∉ ["temp_range"; "month"; "day_of_week"] → dtypes out !! c = dtypes d5 !! c)
    ∧ (∀ c, c ∈ ["temp_range"; "month"; "day_of_week"] → has_column out c = true)
    ∧ Forall2 (fun r r' =>
         ∃ d a b, get r "time" = Date d
                  ∧ temperature_2m_max r = Num a ∧ temperature_2m_min r = Num b
                  ∧ complete d2 r ∧ typed d2 r
                  ∧ r' = with_computed (Num (a - b)) r)
        (rows d5) (rows out).
Proof.
  intros Hout.
  apply transform_drop_stages in Hout as (d1 & d2 & d5 & H1 & H2 & D5 & S5 & C5 & H6).
  exists d1, d2, d5. do 4 (split; [done|]).
  pose proof (cast_types_typed _ _ _ _ H2) as T2.
  pose proof (add_computed_columns_dtypes _ _ H6) as (Hmax & Hmin & D6).
  apply add_computed_columns_Ok in H6 as (R6 & Dtime & Dother).
  split; [done|]. split.
  { intros c Hc. unfold has_column. rewrite D6. apply bool_decide_eq_true_2.
    rewrite !elem_of_cons, elem_of_nil in Hc. destruct Hc as [->|[->|[->|[]]]].
    - by rewrite lookup_insert_ne, lookup_insert_ne, lookup_insert_eq by done.
    - by rewrite lookup_insert_ne, lookup_insert_eq by done.
    - by rewrite lookup_insert_eq. }
  rewrite Forall_forall in C5, T2.
  rewrite (has_column_dtypes _ _ "temperature_2m_max" D5) in Hmax.
  rewrite (has_column_dtypes _ _ "temperature_2m_min" D5) in Hmin.
  apply (Forall2_impl_l _ _ _ _ R6). intros r r' Hri (v & Hv & ->).
  pose proof (C5 r Hri) as Cr.
  pose proof (T2 r (elem_of_sublist _ _ _ Hri S5)) as Tr.
  destruct Tr as (Ttime & Tnum & Twc).
  assert (∃ d, get r "time" = Date d) as [d Hd].
  { destruct Ttime as [Hna|?]; [|done]. exfalso. revert Hna. apply Cr.
    unfold has_column. rewrite <- D5, Dtime. by apply bool_decide_eq_true_2. }
  assert (∃ a, temperature_2m_max r = Num a) as [a Ha].
  { destruct (Tnum "temperature_2m_max") as [Hna|?];
      [apply numeric_col; by vm_compute|done| |done].
    exfalso. revert Hna. by apply Cr. }
  assert (∃ b, temperature_2m_min r = Num b) as [b Hb].
  { destruct (Tnum "temperature_2m_min") as [Hna|?];
      [apply numeric_col; by vm_compute|done| |done].
    exfalso. revert Hna. by apply Cr. }
  rewrite Ha, Hb in Hv. injection Hv as <-.
  by exists d, a, b.
Qed.

(** X8. With the strategy [drop], the frame [transform] returns has no
    missing value left, in the columns of the extraction or in the three
    derived ones. *)
Theorem transform_drop_no_missing
    (strptime : string → option date) (parse_number : string → option Q)
    (raw out : DataFrame)
    (Hout : transform strptime parse_number raw "drop" = Ok out) :
  (∀ r c, r ∈ rows out → has_column out c = true → get r c ≠ NA)
  ∧ missing_count out = 0%nat.
Proof.
  assert (Forall (complete out) (rows out)) as Hall.
  { apply transform_drop_rows in Hout as (d1 & d2 & d5 & _ & _ & D5 & _ & Dother & _ & R6).
    apply Forall_forall. intros r' Hr'.
    apply list_elem_of_lookup in Hr' as [i Hi].
    destruct (Forall2_lookup_r _ _ _ _ _ R6 Hi) as (r & _ & d & a & b & Hd & _ & _ & Cr & _ & ->).
    intros c Hc. rewrite get_with_computed, Hd.
    repeat case_decide; try done.
    apply Cr. unfold has_column in *. rewrite <- D5, <- Dother; [done|].
    rewrite !not_elem_of_cons. repeat split; try done. apply not_elem_of_nil. }
  split; [|by apply missing_count_complete].
  intros r c Hr Hc. rewrite Forall_forall in Hall. by apply Hall.
Qed.

Lemma transform_drop_no_missing_witness :
  transform strict_ymd decimal_literal raw_df "drop" = Ok transformed_raw_df
  ∧ missing_count transformed_raw_df = 0%nat.
Proof.
  assert (transform strict_ymd decimal_literal raw_df "drop" = Ok transformed_raw_df)
    as Hout by reflexivity.
  split; [exact Hout|].
  exact (proj2 (transform_drop_no_missing _ _ _ _ Hout)).
Defined.

(** ** The keys of the rows, from deduplication to the relation *)










(** ** From the rows [transform] returns to the records [load] sends *)




Ltac solve_elem_of :=
  repeat first [apply list_elem_of_here | apply list_elem_of_further].






Lemma omap_Forall2_eq {A B C} (f : A → option C) (g : B → option C) l l' :
  Forall2 (fun x y => f x = g y) l l' → omap f l = omap g l'.
Proof.
  induction 1 as [|x y l l' Hxy _ IH]; [done|]. cbn [omap list_omap].
  rewrite Hxy. fold (omap f l). fold (omap g l'). by rewrite IH.
Qed.









(** ** What [load] leaves as it was *)

Lemma load_Ok fault df w n w' :
  load fault df w = (Ok n, w') →
  ∃ recs, build_records df = Ok recs ∧ n = length (rows df)
    ∧ relation w'
      = Some {| tuples := foldl upsert (tuples (default empty_table (relation w))) recs |}.
Proof.
  unfold load. destruct (build_records df) as [recs|e] eqn:Hrecs; [|done].
  rewrite create_table_spec. unfold get_connection, execute_values.
  cbn [relation trace log].
  destruct (execute_pages _ _ _ _ _) as [[pe|conn'] w1] eqn:Hexec; [done|].
  apply execute_pages_inv in Hexec as (_ & _ & Hok).
  intros [= <- <-]. exists recs. split; [done|]. split; [done|].
  unfold commit, close, log. cbn [relation].
  by rewrite (Hok conn' eq_refl), paginate_concat.
Qed.

Lemma upsert_size t rec : (size t ≤ size (upsert t rec) ≤ S (size t))%nat.
Proof.
  unfold upsert. destruct (proposed rec) as [e|[k excluded]]; [lia|].
  rewrite map_size_insert. destruct (t !! k); cbn; lia.
Qed.

Lemma foldl_upsert_size recs t :
  (size t ≤ size (foldl upsert t recs) ≤ size t + length recs)%nat.
Proof.
  revert t. induction recs as [|rec recs IH]; intros t; cbn [foldl length]; [lia|].
  pose proof (upsert_size t rec). pose proof (IH (upsert t rec)). lia.
Qed.

Lemma upsert_keeps t rec k : is_Some (t !! k) → is_Some (upsert t rec !! k).
Proof.
  unfold upsert. destruct (proposed rec) as [e|[k' excluded]]; [done|].
  intros Hk. destruct (decide (k' = k)) as [->|Hne].
  - rewrite lookup_insert_eq. eauto.
  - by rewrite lookup_insert_ne.
Qed.

Lemma foldl_upsert_keeps recs t k :
  is_Some (t !! k) → is_Some (foldl upsert t recs !! k).
Proof.
  revert t. induction recs as [|rec recs IH]; intros t Hk; [done|].
  cbn [foldl]. by apply IH, upsert_keeps.
Qed.

(** X10. A successful [load] never removes a row from the relation, and
    changes no row whose key is not in the batch; the number of rows grows
    by at most the number of rows of the frame. *)
Theorem load_keeps_other_rows (fault : option nat) (df : DataFrame) (w w' : World) (n : nat)
    (Hload : load fault df w = (Ok n, w')) :
  (∀ k, is_Some (stored_tuple w k) → is_Some (stored_tuple w' k))
  ∧ (∀ k, k ∉ omap record_key (records_of df) → stored_tuple w' k = stored_tuple w k)
  ∧ (row_count w ≤ row_count w')%nat
  ∧ (row_count w' ≤ row_count w + length (rows df))%nat.
Proof.
  apply load_Ok in Hload as (recs & Hrecs & -> & Hrel).
  assert (∀ k, stored_tuple w k = tuples (default empty_table (relation w)) !! k) as Hw.
  { intros k. unfold stored_tuple. by destruct (relation w). }
  assert (row_count w = size (tuples (default empty_table (relation w)))) as Hn.
  { unfold row_count. by destruct (relation w). }
  assert (∀ k, stored_tuple w' k
               = foldl upsert (tuples (default empty_table (relation w))) recs !! k) as Hw'.
  { intros k. unfold stored_tuple. by rewrite Hrel. }
  assert (row_count w'
          = size (foldl upsert (tuples (default empty_table (relation w))) recs)) as Hn'.
  { unfold row_count. by rewrite Hrel. }
  unfold records_of. rewrite Hrecs, Hn, Hn', <- (build_records_length df recs Hrecs).
  pose proof (foldl_upsert_size recs (tuples (default empty_table (relation w)))).
  split; [|split; [|lia]].
  - intros k. rewrite Hw, Hw'. apply foldl_upsert_keeps.
  - intros k Hk. rewrite Hw, Hw'. by apply foldl_upsert_other.
Qed.

Lemma load_keeps_other_rows_witness :
  load None load_updated_df loaded_world
  = (Ok 3%nat, (load None load_updated_df loaded_world).2)
  ∧ (row_count loaded_world ≤ row_count (load None load_updated_df loaded_world).2)%nat.
Proof.
  assert (load None load_updated_df loaded_world
          = (Ok 3%nat, (load None load_updated_df loaded_world).2)) as Hload.
  { apply injective_projections; [vm_compute; reflexivity|reflexivity]. }
  split; [exact Hload|].
  exact (proj1 (proj2 (proj2 (load_keeps_other_rows _ _ _ _ _ Hload)))).
Defined.

Lemma unfold_mapR_cons {A B} (f : A → result B) (x : A) (l : list A) :
  mapR f (x :: l) = f x ≫= fun y => mapR f l ≫= fun ys => Ok (y :: ys).
Proof. done. Qed.

(** X11. A column of the relation that the frame lacks is only noticed when
    there is a row: [load] of a frame with no row returns 0 and commits,
    without a statement sent, whatever its columns; with a row it raises
    before it opens the connection of the batch, the table created, and the
    error is the [KeyError] of [city] when that is a column it lacks. *)
Theorem load_missing_column (fault : option nat) (df : DataFrame) (w : World) (c : string)
    (Hc : c ∈ columns) (Hmiss : has_column df c = false) :
  match rows df with
  | [] => load fault df w = (Ok 0%nat, log [Connect; Commit; Close] (create_table w))
  | _ :: _ =>
      ∃ e, load fault df w = (Raise e, create_table w)
           ∧ (has_column df "city" = false → e = KeyError "city")
  end.
Proof.
  unfold load, build_records. destruct (rows df) as [|r rs] eqn:Hrows.
  - cbn [mapR]. rewrite create_table_spec.
    unfold get_connection, execute_values, paginate.
    cbn [paginate_from execute_pages]. unfold commit, close, log.
    cbn [relation trace working length]. do 2 f_equal. by rewrite <- !app_assoc.
  - assert (record_value df r c = Raise (KeyError c)) as Hraise
      by (unfold record_value; by rewrite Hmiss).
    destruct (mapR_Raise (record_value df r) columns c (KeyError c) Hc Hraise)
      as (c' & e & _ & _ & He).
    exists e. cbn [mapR]. rewrite He. split; [done|].
    intros Hcity.
    assert (mapR (record_value df r) columns = Raise (KeyError "city")) as He'.
    { unfold columns. rewrite (unfold_mapR_cons (record_value df r)).
      assert (record_value df r "city" = Raise (KeyError "city")) as ->
        by (unfold record_value; by rewrite Hcity).
      done. }
    rewrite He' in He. by injection He as <-.
Qed.

Lemma load_missing_column_witness :
  ∃ e, load None load_sample_without_city empty_world = (Raise e, create_table empty_world)
       ∧ (has_column load_sample_without_city "city" = false → e = KeyError "city").
Proof.
  apply (load_missing_column None load_sample_without_city empty_world "city").
  - unfold columns. solve_elem_of.
  - reflexivity.
Defined.

(** ** The names [clean_column_names] gives the columns *)

Lemma before_occurs c s : occurs c (before c s) = false.
Proof.
  induction s as [|a s IH]; [done|]. cbn [before].
  destruct (Ascii.eqb a c) eqn:E; [done|]. cbn [occurs]. by rewrite E.
Qed.

Lemma before_id c s : occurs c s = false → before c s = s.
Proof.
  induction s as [|a s IH]; [done|]. cbn [occurs before].
  intros [-> H]%orb_false_iff. by rewrite IH.
Qed.

Lemma occurs_lstrip c s : occurs c s = false → occurs c (lstrip s) = false.
Proof.
  induction s as [|a s IH]; [done|]. cbn [lstrip].
  destruct (isspace a); [|done]. cbn [occurs]. intros [_ H]%orb_false_iff. by apply IH.
Qed.

Lemma occurs_rstrip c s : occurs c s = false → occurs c (rstrip s) = false.
Proof.
  induction s as [|a s IH]; [done|]. cbn [occurs rstrip].
  intros [Ha H]%orb_false_iff. specialize (IH H).
  destruct (rstrip s) as [|b t].
  - destruct (isspace a); [done|]. cbn [occurs]. by rewrite Ha.
  - cbn [occurs] in *. by rewrite Ha.
Qed.

Lemma occurs_replace a b s : Ascii.eqb b a = false → occurs a (replace a b s) = false.
Proof.
  intros Hba. induction s as [|x s IH]; [done|]. cbn [replace occurs]. rewrite IH.
  destruct (Ascii.eqb x a) eqn:E; [by rewrite Hba|by rewrite E].
Qed.

Lemma occurs_replace_other c a b s :
  Ascii.eqb b c = false → occurs c s = false → occurs c (replace a b s) = false.
Proof.
  intros Hbc. induction s as [|x s IH]; [done|]. cbn [replace occurs].
  intros [Hx H]%orb_false_iff. rewrite IH by done.
  destruct (Ascii.eqb x a); [by rewrite Hbc|by rewrite Hx].
Qed.

Lemma replace_id a b s : occurs a s = false → replace a b s = s.
Proof.
  induction s as [|x s IH]; [done|]. cbn [replace occurs].
  intros [-> H]%orb_false_iff. by rewrite IH.
Qed.

Lemma lstrip_length s : (String.length (lstrip s) ≤ String.length s)%nat.
Proof.
  induction s as [|a s IH]; [done|]. cbn [lstrip].
  destruct (isspace a); cbn [String.length]; lia.
Qed.

Lemma lstrip_fixed a s : lstrip (String a s) = String a s → isspace a = false.
Proof.
  cbn [lstrip]. destruct (isspace a); [|done]. intros H.
  pose proof (lstrip_length s) as L. rewrite H in L. cbn [String.length] in L. lia.
Qed.

Lemma lstrip_idem s : lstrip (lstrip s) = lstrip s.
Proof.
  induction s as [|a s IH]; [done|]. cbn [lstrip].
  destruct (isspace a) eqn:E; [done|]. cbn [lstrip]. by rewrite E.
Qed.

Lemma lstrip_rstrip s : lstrip s = s → lstrip (rstrip s) = rstrip s.
Proof.
  destruct s as [|a s]; [done|]. intros E%lstrip_fixed. cbn [rstrip].
  destruct (rstrip s); rewrite ?E; cbn [lstrip]; by rewrite E.
Qed.

Lemma rstrip_idem s : rstrip (rstrip s) = rstrip s.
Proof.
  induction s as [|a s IH]; [done|]. cbn [rstrip].
  destruct (rstrip s) as [|b t] eqn:E.
  - destruct (isspace a) eqn:Ea; [done|]. cbn [rstrip]. by rewrite Ea.
  - change (rstrip (String a (String b t))) with
      (match rstrip (String b t) with
       | EmptyString => if isspace a then EmptyString else String a EmptyString
       | String c u => String a (String c u)
       end).
    by rewrite IH.
Qed.

Lemma space_isspace a : Ascii.eqb a " " = true → isspace a = true.
Proof. by intros ->%Ascii.eqb_eq. Qed.

Lemma lstrip_replace s :
  lstrip s = s → lstrip (replace " " "_" s) = replace " " "_" s.
Proof.
  destruct s as [|a s]; [done|]. intros E%lstrip_fixed. cbn [replace].
  destruct (Ascii.eqb a " ") eqn:Ea.
  - apply space_isspace in Ea. congruence.
  - cbn [lstrip]. by rewrite E.
Qed.

Lemma rstrip_replace s :
  rstrip s = s → rstrip (replace " " "_" s) = replace " " "_" s.
Proof.
  induction s as [|a s IH]; [done|]. cbn [rstrip replace].
  destruct (rstrip s) as [|b t] eqn:E.
  - destruct (isspace a) eqn:Ea; [done|]. intros [= <-]. cbn [replace rstrip].
    destruct (Ascii.eqb a " ") eqn:Es; [apply space_isspace in Es; congruence|].
    by rewrite Ea.
  - intros [= <-]. rewrite IH by done. cbn [replace]. done.
Qed.

(** X12. The name [clean_column_names] gives a column has no opening
    parenthesis and no space in it, and cleaning a cleaned name changes
    nothing. *)
Theorem clean_name_idempotent (col : string) :
  occurs "(" (clean_name col) = false
  ∧ occurs " " (clean_name col) = false
  ∧ clean_name (clean_name col) = clean_name col.
Proof.
  assert (occurs "(" (clean_name col) = false) as Hparen.
  { unfold clean_name, strip. apply occurs_replace_other; [done|].
    apply occurs_rstrip, occurs_lstrip, before_occurs. }
  assert (occurs " " (clean_name col) = false) as Hspace
    by (unfold clean_name; by apply occurs_replace).
  split; [done|]. split; [done|].
  assert (lstrip (clean_name col) = clean_name col) as Hl.
  { unfold clean_name, strip. apply lstrip_replace, lstrip_rstrip, lstrip_idem. }
  assert (rstrip (clean_name col) = clean_name col) as Hr.
  { unfold clean_name, strip. apply rstrip_replace, rstrip_idem. }
  unfold clean_name at 1. unfold strip.
  rewrite (before_id _ _ Hparen), Hl, Hr. by apply replace_id.
Qed.

Lemma no_space_occurs s : no_space s = true → occurs " " s = false.
Proof.
  induction s as [|a s IH]; [done|]. cbn [no_space occurs].
  intros [Ha H]%andb_true_iff. rewrite IH by done.
  destruct (Ascii.eqb a " ") eqn:E; [|done].
  apply space_isspace in E. by rewrite E in Ha.
Qed.

Lemma lstrip_no_space s t : no_space s = true → s ≠ "" → lstrip (s ++ t) = s ++ t.
Proof.
  destruct s as [|a s]; [done|]. simpl.
  intros [Ha Hs]%andb_true_iff Hne. by destruct (isspace a).
Qed.

Lemma rstrip_no_space s : no_space s = true → rstrip (s ++ " ") = s.
Proof.
  induction s as [|a s IH]; [done|]. simpl.
  intros [Ha H]%andb_true_iff. rewrite IH by done.
  destruct s; [|done]. by destruct (isspace a).
Qed.

Lemma rstrip_no_space_id s : no_space s = true → rstrip s = s.
Proof.
  induction s as [|a s IH]; [done|]. cbn [no_space rstrip].
  intros [Ha H]%andb_true_iff. rewrite IH by done.
  destruct s; [|done]. by destruct (isspace a).
Qed.

Lemma lstrip_no_space_id s : no_space s = true → lstrip s = s.
Proof.
  destruct s as [|a s]; [done|]. cbn [no_space lstrip].
  intros [Ha _]%andb_true_iff. by destruct (isspace a).
Qed.

Lemma before_unit c x s t :
  occurs c s = false → Ascii.eqb x c = false →
  before c (s ++ String x (String c t)) = s ++ String x "".
Proof.
  intros Hs Hx. induction s as [|a s IH]; simpl in *.
  - by rewrite Hx, Ascii.eqb_refl.
  - apply orb_false_iff in Hs as [-> H]. by rewrite IH.
Qed.

(** X13. A name without parenthesis and whitespace is left as it is, and a
    unit in parentheses after it, set off by a space, is removed:
    [temperature_2m_max (mm)] becomes [temperature_2m_max]. *)
Theorem clean_name_removes_unit (name unit : string)
    (Hparen : occurs "(" name = false) (Hspace : no_space name = true) :
  clean_name name = name
  ∧ clean_name (name ++ " (" ++ unit) = name.
Proof.
  pose proof (replace_id " " "_" name (no_space_occurs name Hspace)) as Hreplace.
  split.
  - unfold clean_name, strip.
    by rewrite before_id, lstrip_no_space_id, rstrip_no_space_id.
  - unfold clean_name, strip.
    change (name ++ " (" ++ unit) with (name ++ String " " (String "(" unit)).
    rewrite before_unit by done.
    destruct name as [|a s]; [done|].
    rewrite lstrip_no_space by done.
    by rewrite rstrip_no_space.
Qed.

Lemma clean_name_removes_unit_witness :
  clean_name "temperature_2m_max" = "temperature_2m_max"
  ∧ clean_name "temperature_2m_max (mm)" = "temperature_2m_max".
Proof. exact (clean_name_removes_unit "temperature_2m_max" "mm)" eq_refl eq_refl). Defined.
